(** * The image build pipeline of [superai.meta_ai.image_builder]

    A shallow embedding of [AiImageBuilder]: orchestrator catalogue,
    entrypoint preparation, change detection, base-image resolution and
    provisioning, the two-stage s2i build, and the deployment properties.

    Python code that touches the file system, the docker daemon, the
    registry or a subprocess is written in a state-and-error monad that
    also logs every such operation, so that statements about "what was
    invoked, and in which order" are statements about the log. *)

From Stdlib Require Import ZArith Lia.
From stdpp Require Import base option list strings gmap pretty.

Local Open Scope string_scope.
Local Open Scope Z_scope.
Local Open Scope list_scope.

(** ** Python values that the pipeline stores in dictionaries and JSON files *)

(** A float is only ever carried around as a literal here (0.5), never
    computed with: [VFloat m e] stands for the decimal [m * 10^e]. *)
Inductive scalar :=
  | VNone
  | VBool (b : bool)
  | VInt (z : Z)
  | VFloat (m e : Z)
  | VStr (s : string).

#[global] Instance scalar_eq_dec : EqDecision scalar.
Proof. solve_decision. Defined.

(** [bool(v)] *)
Definition truthy (v : scalar) : bool :=
  match v with
  | VNone => false
  | VBool b => b
  | VInt z => negb (z =? 0)
  | VFloat m _ => negb (m =? 0)
  | VStr s => negb (String.eqb s "")
  end.

(** [a or b] *)
Definition py_or (a b : scalar) : scalar := if truthy a then a else b.

(** [d.get(k)]: a missing key reads as [None]. *)
Definition dict_get (d : gmap string scalar) (k : string) : scalar :=
  default VNone (d !! k).

(** [s != v] for a [str] on the left: only an equal string compares equal. *)
Definition str_ne (s : string) (v : scalar) : bool :=
  match v with
  | VStr t => negb (String.eqb s t)
  | _ => true
  end.

(** ** Orchestrators *)

Inductive Orchestrator :=
  | LOCAL_DOCKER
  | LOCAL_DOCKER_LAMBDA
  | LOCAL_DOCKER_K8S
  | MINIKUBE
  | AWS_SAGEMAKER
  | AWS_SAGEMAKER_ASYNC
  | AWS_LAMBDA
  | AWS_EKS.

#[global] Instance Orchestrator_eq_dec : EqDecision Orchestrator.
Proof. solve_decision. Defined.

(** The enum mixes in [str]: a member compares and serialises as its value. *)
Definition orch_value (o : Orchestrator) : string :=
  match o with
  | LOCAL_DOCKER => "LOCAL_DOCKER"
  | LOCAL_DOCKER_LAMBDA => "LOCAL_DOCKER_LAMBDA"
  | LOCAL_DOCKER_K8S => "LOCAL_DOCKER_K8S"
  | MINIKUBE => "MINIKUBE"
  | AWS_SAGEMAKER => "AWS_SAGEMAKER"
  | AWS_SAGEMAKER_ASYNC => "AWS_SAGEMAKER_ASYNC"
  | AWS_LAMBDA => "AWS_LAMBDA"
  | AWS_EKS => "AWS_EKS"
  end.

(** [self.orchestrator in [Orchestrator.AWS_EKS, Orchestrator.LOCAL_DOCKER_K8S]] *)
Definition is_k8s (o : Orchestrator) : bool :=
  match o with AWS_EKS | LOCAL_DOCKER_K8S => true | _ => false end.

(** [self.orchestrator in [Orchestrator.LOCAL_DOCKER_LAMBDA, Orchestrator.AWS_LAMBDA]] *)
Definition is_lambda (o : Orchestrator) : bool :=
  match o with LOCAL_DOCKER_LAMBDA | AWS_LAMBDA => true | _ => false end.

(** [self.orchestrator in [LOCAL_DOCKER, AWS_SAGEMAKER, AWS_SAGEMAKER_ASYNC]] *)
Definition is_serving (o : Orchestrator) : bool :=
  match o with
  | LOCAL_DOCKER | AWS_SAGEMAKER | AWS_SAGEMAKER_ASYNC => true
  | _ => false
  end.

(** [self.orchestrator in [LOCAL_DOCKER, LOCAL_DOCKER_LAMBDA, LOCAL_DOCKER_K8S]] *)
Definition is_local (o : Orchestrator) : bool :=
  match o with
  | LOCAL_DOCKER | LOCAL_DOCKER_LAMBDA | LOCAL_DOCKER_K8S => true
  | _ => false
  end.

(** ** Errors *)

Inductive exn :=
  | ValueError (msg : string)
  | NotImplementedError
  | ModuleNotFoundError
  | FileNotFoundError (path : string)
  | JSONDecodeError (path : string)
  | TypeError (msg : string)
  | ImageNotFound (image : string)
  | RegistryError (image : string)
  | CalledProcessError (cmd : string).

Inductive result (A : Type) :=
  | Ok (a : A)
  | Raise (e : exn).
Arguments Ok {A} a.
Arguments Raise {A} e.

(** ** Base image resolver *)

(** [_get_base_name]; [current_env] is [settings.current_env]. *)
Definition _get_base_name (current_env : string)
    (enable_eia lambda_mode enable_cuda cuda_devel k8s_mode : bool)
    (version : Z) (use_internal : bool) : result string :=
  if enable_eia && (lambda_mode || enable_cuda || k8s_mode) then
    Raise (ValueError "Cannot use EIA with other options")
  else if enable_cuda && lambda_mode then
    Raise (ValueError "Cannot use CUDA with Lambda")
  else
    let base_image := "superai-model-s2i-python3711" in
    let base_image :=
      if cuda_devel then base_image +:+ "-gpu-devel"
      else if enable_cuda then base_image +:+ "-gpu"
      else if enable_eia then base_image +:+ "-eia"
      else base_image +:+ "-cpu" in
    let base_image :=
      if String.eqb current_env "dev" || use_internal
      then base_image +:+ "-internal" else base_image in
    let base_image :=
      if lambda_mode then base_image +:+ "-lambda"
      else if k8s_mode then base_image +:+ "-seldon"
      else base_image in
    Ok (base_image +:+ ":" +:+ pretty version).

(** ** Paths *)

Definition slash : Ascii.ascii := Ascii.Ascii true true true true false true false false.

Definition starts_with_slash (s : string) : bool :=
  match s with
  | String c _ => Ascii.eqb c slash
  | EmptyString => false
  end.

Fixpoint ends_with_slash (s : string) : bool :=
  match s with
  | EmptyString => false
  | String c EmptyString => Ascii.eqb c slash
  | String _ r => ends_with_slash r
  end.

(** [os.path.join(a, b)] (posixpath); with more components it is folded
    from the left, as the library does. *)
Definition path_join (a b : string) : string :=
  if starts_with_slash b then b
  else if String.eqb a "" || ends_with_slash a then a +:+ b
  else a +:+ "/" +:+ b.

(** ** The world the builder acts on *)

(** What a file holds: raw bytes, or the dictionary that [json.dump] wrote. *)
Inductive content :=
  | Raw (data : string)
  | Json (d : gmap string scalar).

Record World := mkWorld {
  cwd : string;                        (* the process's working directory *)
  dirs : gset string;                  (* existing directories *)
  files : gmap string content;         (* existing files, by absolute path *)
  images : gset string;                (* images known to the local daemon *)
  environs : list (string * string);   (* the environment file's variables *)
}.

Definition set_cwd (p : string) (w : World) : World :=
  mkWorld p (dirs w) (files w) (images w) (environs w).
Definition add_dir (p : string) (w : World) : World :=
  mkWorld (cwd w) ({[p]} ∪ dirs w) (files w) (images w) (environs w).
Definition set_file (p : string) (c : content) (w : World) : World :=
  mkWorld (cwd w) (dirs w) (<[p := c]> (files w)) (images w) (environs w).
Definition add_image (i : string) (w : World) : World :=
  mkWorld (cwd w) (dirs w) (files w) ({[i]} ∪ images w) (environs w).
Definition set_environs (e : list (string * string)) (w : World) : World :=
  mkWorld (cwd w) (dirs w) (files w) (images w) e.

(** Paths are kept as the program writes them (a relative one is relative
    to the directory the caller started in); [os.path.abspath(f)] of a bare
    file name is [f] joined to the working directory. *)
Definition abspath (w : World) (f : string) : string := path_join (cwd w) f.

(** Commands handed to [superai.utils.system]. *)
Inductive command :=
  | S2IBuild (env_file home base_image_tag image_tag : string)
  | DockerPull (image : string).

(** The command line of each, as the source formats it. *)
Definition render (c : command) : string :=
  match c with
  | S2IBuild env_file home base_image_tag image_tag =>
      "s2i build -E " +:+ env_file +:+ " "
      +:+ "-v " +:+ path_join home ".aws" +:+ ":/root/.aws "
      +:+ "-v " +:+ path_join home ".superai" +:+ ":/root/.superai "
      +:+ "-v " +:+ path_join home ".canotic" +:+ ":/root/.canotic "
      +:+ "--incremental=True . "
      +:+ base_image_tag +:+ " " +:+ image_tag
  | DockerPull image => "docker pull " +:+ image
  end.

(** Every operation that leaves the interpreter is logged. *)
Inductive event :=
  | EChdir (path : string)
  | EMakedirs (path : string)
  | EExists (path : string)
  | ERead (path : string)
  | EWrite (path : string)
  | EEnviron (key : string)
  | EDockerClient
  | EImageGet (image : string)
  | EEcrLogin (registry : string)
  | EImagePull (image : string)
  | EImageTag (image tag : string)
  | EWhich (tool : string)
  | ESystem (c : command).

(** What the pipeline takes from outside this module: library functions,
    the settings, and the outcome of each remote or subprocess call. *)
Record Externals := mkExternals {
  sha256 : string → string;                       (* hashlib.sha256(..).hexdigest() *)
  json_dumps : gmap string scalar → string;       (* the text json.dump writes *)
  json_loads : string → option (gmap string scalar);
  create_model_handler : string → bool → scalar → string;
  create_model_entrypoint : scalar → string;
  current_env : string;                           (* settings.current_env *)
  path_for : string;                              (* settings.path_for() *)
  home : string;                                  (* os.path.expanduser('~') *)
  region : string;                                (* boto3.Session().region_name *)
  account_id : string;                            (* sts get_caller_identity *)
  login_ok : string → bool;                       (* aws_ecr_login succeeds *)
  pull_ok : string → bool;                        (* client.images.pull succeeds *)
  s2i_on_path : bool;                             (* shutil.which("s2i") is not None *)
  system_ok : command → bool;                     (* the subprocess exits with 0 *)
}.

(** ** State, errors and the log *)

Definition M (A : Type) : Type := World → result A * World * list event.

Definition ret {A} (a : A) : M A := λ w, (Ok a, w, []).
Definition raise {A} (e : exn) : M A := λ w, (Raise e, w, []).
Definition bind {A B} (m : M A) (k : A → M B) : M B := λ w,
  match m w with
  | (Ok a, w1, t1) => let '(r, w2, t2) := k a w1 in (r, w2, t1 ++ t2)
  | (Raise e, w1, t1) => (Raise e, w1, t1)
  end.

Notation "'do' x <- m ; k" := (bind m (λ x, k))
  (at level 10, x name, m at level 100, k at level 200).
Notation "'do_' m ; k" := (bind m (λ _, k))
  (at level 10, m at level 100, k at level 200).

Definition emit (e : event) : M unit := λ w, (Ok tt, w, [e]).
Definition get_world : M World := λ w, (Ok w, w, []).
Definition modify (f : World → World) : M unit := λ w, (Ok tt, f w, []).

(** [try: m finally: fin] *)
Definition try_finally {A} (m : M A) (fin : M unit) : M A := λ w,
  let '(r, w1, t1) := m w in
  match fin w1 with
  | (Ok _, w2, t2) => (r, w2, t1 ++ t2)
  | (Raise e, w2, t2) => (Raise e, w2, t1 ++ t2)
  end.

(** [try: m except ImageNotFound: handler] *)
Definition except_ImageNotFound {A} (m : M A) (handler : M A) : M A := λ w,
  match m w with
  | (Raise (ImageNotFound _), w1, t1) =>
      let '(r, w2, t2) := handler w1 in (r, w2, t1 ++ t2)
  | other => other
  end.

Definition outcome {A} (x : result A * World * list event) : result A := x.1.1.
Definition final {A} (x : result A * World * list event) : World := x.1.2.
Definition log {A} (x : result A * World * list event) : list event := x.2.

(** ** Operating-system primitives *)

(** [os.getcwd()]: fails when the working directory no longer exists. *)
Definition getcwd : M string := λ w,
  if decide (cwd w ∈ dirs w) then (Ok (cwd w), w, [])
  else (Raise (FileNotFoundError (cwd w)), w, []).

(** [os.chdir(p)] *)
Definition chdir (p : string) : M unit := λ w,
  if decide (p ∈ dirs w) then (Ok tt, set_cwd p w, [EChdir p])
  else (Raise (FileNotFoundError p), w, [EChdir p]).

(** [os.makedirs(p, exist_ok=True)] *)
Definition makedirs (p : string) : M unit :=
  do_ emit (EMakedirs p);
  modify (add_dir p).

(** [os.path.exists(p)] *)
Definition path_exists (p : string) : M bool :=
  do w <- get_world;
  do_ emit (EExists p);
  ret (bool_decide (is_Some (files w !! p)) || bool_decide (p ∈ dirs w)).

(** [open(p).read()] of whatever the file holds. *)
Definition read_file (p : string) : M content :=
  do w <- get_world;
  do_ emit (ERead p);
  match files w !! p with
  | Some c => ret c
  | None => raise (FileNotFoundError p)
  end.

(** [open(p, "w").write(c)]; the target directory is taken to be writable. *)
Definition write_file (p : string) (c : content) : M unit :=
  do_ emit (EWrite p);
  modify (set_file p c).

(** ** The builder *)

Record AiImageBuilder := mkBuilder {
  orchestrator : Orchestrator;
  entrypoint_class : string;
  location : string;
  name : string;
  version : string;                          (* already [str(version)] *)
  environs_location : string;                (* [self.environs.location] *)
  requirements : option (list string);
  conda_env : option string;
  artifacts : option (gmap string string);
}.

(** Keyword arguments of [build_image]: the [envs] dictionary and the rest. *)
Record Kwargs := mkKwargs {
  kw_envs : list (string * string);
  kw : gmap string scalar;
}.

(** The [properties] dictionary: the nested [kubernetes_config] and the
    flat entries next to it. *)
Record Properties := mkProperties {
  kubernetes_config : option (gmap string scalar);
  flat : gmap string scalar;
}.

Definition no_properties : Properties := mkProperties None ∅.

(** The files change detection hashes, in the order the source lists them. *)
Definition tracked_files (b : AiImageBuilder) : list string :=
  (match requirements b with
   | Some (_ :: _) => ["requirements.txt"]
   | _ => []
   end)
  ++ (match conda_env b with
      | Some s => if String.eqb s "" then [] else ["environment.yml"]
      | None => []
      end)
  ++ (match artifacts b with
      | Some a => if bool_decide (is_Some (a !! "run")) then ["setup.sh"] else []
      | None => []
      end).

(** [full_image_name] *)
Definition full_image_name (image_name version_tag : string) : string :=
  image_name +:+ ":" +:+ version_tag.

(** The tag of the dependency layer. *)
Definition pip_layer (image_name version_tag : string) : string :=
  image_name +:+ "-pip-layer:" +:+ version_tag.

(** Modelled from the spec: the environment file processor
    ([superai.meta_ai.environment_file]) is not among the sources. It is
    an ordered key-value store persisted to a file, with add-or-update and
    delete; [add_or_update("K=V")] is [add_or_update("K", "V")]. *)
Fixpoint env_add_or_update (k v : string) (l : list (string * string))
    : list (string * string) :=
  match l with
  | [] => [(k, v)]
  | (k', v') :: r =>
      if String.eqb k k' then (k, v) :: r else (k', v') :: env_add_or_update k v r
  end.

Definition env_delete (k : string) (l : list (string * string))
    : list (string * string) :=
  filter (λ kv, kv.1 ≠ k) l.

Definition environs_add_or_update (k v : string) : M unit :=
  do_ emit (EEnviron k);
  do w <- get_world;
  modify (set_environs (env_add_or_update k v (environs w))).

Definition environs_delete (k : string) : M unit :=
  do_ emit (EEnviron k);
  do w <- get_world;
  modify (set_environs (env_delete k (environs w))).

Definition lift {A} (r : result A) : M A :=
  match r with
  | Ok a => ret a
  | Raise e => raise e
  end.

(** [reset_workdir]: remember the directory, run, and go back in [finally]. *)
Definition reset_workdir {A} (function : M A) : M A :=
  do cwd0 <- getcwd;
  try_finally function (chdir cwd0).

Section Pipeline.

Variable X : Externals.

(** [json.load(open(p))]: a file that [json.dump] wrote gives its
    dictionary back; other text goes through the parser. *)
Definition json_load (p : string) : M (gmap string scalar) :=
  do c <- read_file p;
  match c with
  | Json d => ret d
  | Raw s =>
      match json_loads X s with
      | Some d => ret d
      | None => raise (JSONDecodeError p)
      end
  end.

(** [open(os.path.abspath(f), "rb").read()] *)
Definition read_bytes (f : string) : M string :=
  do w <- get_world;
  do c <- read_file (abspath w f);
  match c with
  | Raw s => ret s
  | Json d => ret (json_dumps X d)
  end.

(** Modelled from the spec: [superai.utils.system] is not among the
    sources. It runs the command line as a subprocess; a failing command
    surfaces to the caller as a raised error. An s2i build that succeeds
    leaves its target image in the local daemon, and so does a pull. *)
Definition system (c : command) : M unit :=
  do_ emit (ESystem c);
  if system_ok X c then
    match c with
    | S2IBuild _ _ _ image_tag => modify (add_image image_tag)
    | DockerPull image => modify (add_image image)
    end
  else raise (CalledProcessError (render c)).

(** [client.images.get(image)] *)
Definition images_get (image : string) : M unit :=
  do w <- get_world;
  do_ emit (EImageGet image);
  if decide (image ∈ images w) then ret tt else raise (ImageNotFound image).

(** [_get_docker_registry] *)
Definition _get_docker_registry (region : string) : string :=
  account_id X +:+ ".dkr.ecr." +:+ region +:+ ".amazonaws.com".

(** [_download_base_image] *)
Definition _download_base_image (base_image : string) : M unit :=
  let registry_name := _get_docker_registry (region X) in
  let ecr_image_name := registry_name +:+ "/" +:+ base_image in
  do_ emit (EEcrLogin registry_name);
  do_ (if login_ok X registry_name then ret tt
       else raise (RegistryError registry_name));
  do_ emit (EImagePull ecr_image_name);
  do_ (if pull_ok X ecr_image_name then modify (add_image ecr_image_name)
       else raise (RegistryError ecr_image_name));
  do_ system (DockerPull ecr_image_name);
  do_ images_get ecr_image_name;
  do_ emit (EImageTag ecr_image_name base_image);
  modify (add_image base_image).

(** [prepare_entrypoint] *)
Definition prepare_entrypoint (b : AiImageBuilder)
    (lambda_ai_cache sagemaker_worker_count : scalar) : M unit :=
  if is_serving (orchestrator b) then
    do_ write_file (path_join (location b) "handler.py")
          (Raw (create_model_handler X (entrypoint_class b) false VNone));
    write_file (path_join (location b) "dockerd-entrypoint.py")
      (Raw (create_model_entrypoint X sagemaker_worker_count))
  else if is_lambda (orchestrator b) then
    write_file (path_join (location b) "handler.py")
      (Raw (create_model_handler X (entrypoint_class b) true lambda_ai_cache))
  else if is_k8s (orchestrator b) then
    ret tt
  else raise NotImplementedError.

(** [prepare] *)
Definition prepare (b : AiImageBuilder) (kwargs : Kwargs) : M unit :=
  prepare_entrypoint b
    (default (VInt 32) (kw kwargs !! "lambda_ai_cache"))
    (default (VInt 1) (kw kwargs !! "sagemaker_worker_count")).

(** The loop of [_track_changes] over the tracked files. [new_hash] and
    [hash_content] are one dictionary in the source, so the comparison of
    a later file reads the entries stored for the earlier ones. *)
Fixpoint hash_loop (fs : list string) (hash_content : gmap string scalar)
    (changes_in_build : bool) : M (gmap string scalar * bool) :=
  match fs with
  | [] => ret (hash_content, changes_in_build)
  | file :: rest =>
      do data <- read_bytes file;
      let file_hash := sha256 X data in
      let changes_in_build :=
        if str_ne file_hash (dict_get hash_content file) then true
        else changes_in_build in
      hash_loop rest (<[file := VStr file_hash]> hash_content) changes_in_build
  end.

Definition cache_folder (b : AiImageBuilder) (cache_root : option string) : string :=
  let cache_root :=
    match cache_root with
    | Some r => if String.eqb r "" then path_join (path_for X) "cache" else r
    | None => path_join (path_for X) "cache"
    end in
  path_join (path_join cache_root (name b)) (version b).

Definition hash_file (b : AiImageBuilder) (cache_root : option string) : string :=
  path_join (cache_folder b cache_root) ".hash.json".

Definition orchestrator_type_file (b : AiImageBuilder) (cache_root : option string)
    : string :=
  path_join (cache_folder b cache_root) ".orchestrator.txt".

(** [_track_changes] *)
Definition _track_changes (b : AiImageBuilder) (cache_root : option string) : M bool :=
  let fs := tracked_files b in
  do_ makedirs (cache_folder b cache_root);
  let hash_file := hash_file b cache_root in
  do present <- path_exists hash_file;
  do_ (if present then ret tt else write_file hash_file (Json ∅));
  do hash_content <- json_load hash_file;
  do r <- hash_loop fs hash_content false;
  let '(new_hash, changes_in_build) := r in
  do_ write_file hash_file (Json new_hash);
  let orchestrator_type_file := orchestrator_type_file b cache_root in
  do present <- path_exists orchestrator_type_file;
  do_ (if present then ret tt else write_file orchestrator_type_file (Json ∅));
  do cached_op_type <- json_load orchestrator_type_file;
  let changes_in_build :=
    if str_ne (orch_value (orchestrator b)) (dict_get cached_op_type "orchestrator")
    then true else changes_in_build in
  do_ write_file orchestrator_type_file
        (Json {["orchestrator" := VStr (orch_value (orchestrator b))]});
  ret changes_in_build.

(** [_create_prediction_image_s2i] *)
Definition _create_prediction_image_s2i (b : AiImageBuilder)
    (base_image_tag image_tag : string) (lambda_mode k8s_mode : bool) : M unit :=
  do_ environs_add_or_update "SUPERAI_CONFIG_ROOT" "/tmp/.superai";
  do_ (if lambda_mode then environs_add_or_update "LAMBDA_MODE" "true"
       else if k8s_mode then
         do_ environs_add_or_update "SERVICE_TYPE" "MODEL";
         do_ environs_add_or_update "PERSISTENCE" "0";
         do_ environs_add_or_update "API_TYPE" "REST";
         environs_add_or_update "SELDON_MODE" "true"
       else ret tt);
  system (S2IBuild (environs_location b) (home X) base_image_tag image_tag).

(** [shutil.which("s2i")] and the error raised when it finds nothing. *)
Definition require_s2i : M unit :=
  do_ emit (EWhich "s2i");
  if s2i_on_path X then ret tt else raise ModuleNotFoundError.

(** The body of [build_image_s2i], below the decorator. The source takes
    [use_internal] and does not hand it to the resolver, which therefore
    runs with its default. *)
Definition build_image_s2i_body (b : AiImageBuilder)
    (image_name version_tag : string)
    (enable_cuda enable_eia cuda_devel from_scratch always_download
     use_internal : bool) : M string :=
  let k8s_mode := is_k8s (orchestrator b) in
  let lambda_mode := is_lambda (orchestrator b) in
  do_ chdir (location b);
  do changes_in_build <- _track_changes b None;
  do_ emit EDockerClient;
  do base_image <-
    lift (_get_base_name (current_env X) enable_eia lambda_mode enable_cuda
            cuda_devel k8s_mode 1 false);
  do from_scratch <-
    (if always_download then
       do_ _download_base_image base_image;
       ret true
     else ret from_scratch);
  do_ except_ImageNotFound (images_get base_image)
        (_download_base_image base_image);
  do_ require_s2i;
  do from_scratch <-
    (if changes_in_build then ret true
     else except_ImageNotFound
            (do_ images_get (pip_layer image_name version_tag);
             ret from_scratch)
            (ret true));
  do_ (if from_scratch then
         do_ environs_delete "BUILD_PIP";
         _create_prediction_image_s2i b base_image
           (pip_layer image_name version_tag) lambda_mode k8s_mode
       else ret tt);
  do_ environs_add_or_update "BUILD_PIP" "false";
  let full_image_name := full_image_name image_name version_tag in
  do_ _create_prediction_image_s2i b (pip_layer image_name version_tag)
        full_image_name lambda_mode k8s_mode;
  ret full_image_name.

(** [build_image_s2i] *)
Definition build_image_s2i (b : AiImageBuilder)
    (image_name version_tag : string)
    (enable_cuda enable_eia cuda_devel from_scratch always_download
     use_internal : bool) : M string :=
  reset_workdir
    (build_image_s2i_body b image_name version_tag enable_cuda enable_eia
       cuda_devel from_scratch always_download use_internal).

(** A keyword parameter with a default, bound from [**kwargs]. *)
Definition kwarg (kwargs : gmap string scalar) (k : string) (dflt : scalar) : scalar :=
  default dflt (kwargs !! k).

(** The dictionary [_prepare_k8s_parameters] merges into the caller's
    [kubernetes_config]: every value is computed from the dictionary as it
    was handed in, then [update] stores them. *)
Definition k8s_manifest (kwargs kubernetes_config : gmap string scalar)
    : gmap string scalar :=
  let ovr k dflt := py_or (dict_get kubernetes_config k) dflt in
  <["enableCuda" := kwarg kwargs "enable_cuda" (VBool false)]>
  (<["numThreads" := ovr "worker_count" (kwarg kwargs "worker_count" (VInt 1))]>
  (<["mountPath" := ovr "mountPath" (kwarg kwargs "mountPath" (VStr "/shared"))]>
  (<["volumeMountName" :=
       ovr "volumeMountName" (kwarg kwargs "volumeMountName" (VStr "efs-vpc"))]>
  (<["targetMemoryLimit" :=
       ovr "targetMemoryLimit" (kwarg kwargs "targetMemoryLimit" (VStr "4Gi"))]>
  (<["targetMemoryRequirement" :=
       ovr "targetMemoryRequirement"
         (kwarg kwargs "targetMemoryRequirement" (VStr "512Mi"))]>
  (<["gpuTargetAverageUtilization" :=
       ovr "gpuTargetAverageUtilization"
         (kwarg kwargs "gpuTargetAverageUtilization" (VInt 60))]>
  (<["targetAverageUtilization" :=
       ovr "targetAverageUtilization"
         (kwarg kwargs "targetAverageUtilization" (VFloat 5 (-1)))]>
  (<["cooldownPeriod" :=
       ovr "cooldownPeriod" (kwarg kwargs "cooldownPeriod" (VInt 1800))]>
  (<["minReplicaCount" := ovr "minReplicas" (kwarg kwargs "minReplicas" (VInt 0))]>
  (<["maxReplicaCount" := ovr "maxReplicas" (kwarg kwargs "maxReplicas" (VInt 5))]>
   kubernetes_config)))))))))).

(** [_prepare_k8s_parameters(properties=properties, **kwargs)] *)
Definition _prepare_k8s_parameters (b : AiImageBuilder)
    (kwargs : gmap string scalar) (properties : option Properties)
    : M (gmap string scalar) :=
  let properties := default no_properties properties in
  let kubernetes_config := default ∅ (kubernetes_config properties) in
  let kubernetes_config := k8s_manifest kwargs kubernetes_config in
  do_ write_file (path_join (location b) (name b +:+ "_config.json"))
        (Json kubernetes_config);
  ret kubernetes_config.

(** [get_deployment_properties(properties=properties, **kwargs)] *)
Definition get_deployment_properties (b : AiImageBuilder)
    (properties : option Properties) (kwargs : gmap string scalar)
    : M Properties :=
  let properties := default no_properties properties in
  do properties <-
    (if is_k8s (orchestrator b) then
       do k8s_config <- _prepare_k8s_parameters b kwargs (Some properties);
       ret (mkProperties (Some k8s_config) (flat properties))
     else ret properties);
  if is_local (orchestrator b) then
    ret (mkProperties (kubernetes_config properties)
           (<["k8s_mode" :=
                py_or (VBool (bool_decide (orchestrator b = LOCAL_DOCKER_K8S))) VNone]>
           (<["enable_cuda" := dict_get kwargs "enable_cuda"]>
           (<["lambda_mode" := VBool (is_lambda (orchestrator b))]>
           (<["image_name" := dict_get kwargs "image_name"]>
            (flat properties))))))
  else ret properties.

(** The loop of [build_image] over [kwargs.get("envs", {}).items()]. *)
Fixpoint update_environs (envs : list (string * string)) : M unit :=
  match envs with
  | [] => ret tt
  | (key, value) :: rest =>
      do_ environs_add_or_update key value;
      update_environs rest
  end.

(** [build_image]. The call of [get_deployment_properties] passes
    [image_name] by keyword next to [**kwargs]; Python refuses the call
    when [kwargs] has that key too. *)
Definition build_image (b : AiImageBuilder)
    (cuda_devel enable_cuda enable_eia skip_build build_all_layers
     download_base : bool) (properties : option Properties)
    (use_internal : bool) (kwargs : Kwargs) : M (string * Properties) :=
  do_ update_environs (kw_envs kwargs);
  do_ prepare b kwargs;
  do image_name <-
    (if negb skip_build then
       build_image_s2i b (name b) (version b) enable_cuda enable_eia cuda_devel
         build_all_layers download_base use_internal
     else ret (full_image_name (name b) (version b)));
  do_ (if bool_decide (is_Some (kw kwargs !! "image_name")) then
         raise (TypeError "got multiple values for keyword argument 'image_name'")
       else ret tt);
  do properties <-
    get_deployment_properties b properties
      (<["image_name" := VStr image_name]>
      (<["cuda_devel" := VBool cuda_devel]>
      (<["enable_cuda" := VBool enable_cuda]>
      (<["enable_eia" := VBool enable_eia]> (kw kwargs)))));
  ret (image_name, properties).

End Pipeline.

(** ** A concrete environment for running the model *)

Definition demo_externals (s2i_installed : bool) : Externals :=
  mkExternals
    (λ data, "sha256:" +:+ data)
    (λ _, "{}")
    (λ _, None)
    (λ cls lambda_mode _, if lambda_mode then "lambda:" +:+ cls else "serve:" +:+ cls)
    (λ _, "entrypoint")
    "prod" "/home/u/.superai" "/home/u" "eu-west-1" "42"
    (λ _, true) (λ _, true) s2i_installed (λ _, true).

Definition demo_builder (o : Orchestrator) : AiImageBuilder :=
  mkBuilder o "Model" "/src/m" "m" "1" "/src/m/.s2i/environment"
    (Some ["numpy"]) None None.

Definition demo_world : World :=
  mkWorld "/home/u" {["/home/u"; "/src/m"]}
    {["/src/m/requirements.txt" := Raw "numpy"]} ∅ [].

(** ** Reading the log *)

(** Source and target image of an s2i build. *)
Definition s2i_call (e : event) : option (string * string) :=
  match e with
  | ESystem (S2IBuild _ _ base_image_tag image_tag) => Some (base_image_tag, image_tag)
  | _ => None
  end.

Definition s2i_calls (t : list event) : list (string * string) := omap s2i_call t.

(** The image of a registry pull through the client. *)
Definition registry_pull (e : event) : option string :=
  match e with
  | EImagePull image => Some image
  | _ => None
  end.

Definition registry_pulls (t : list event) : list string := omap registry_pull t.

(** Image lookups, registry operations and subprocesses. *)
Definition docker_io (e : event) : bool :=
  match e with
  | EImageGet _ | EEcrLogin _ | EImagePull _ | EImageTag _ _ | ESystem _ => true
  | _ => false
  end.

(** Reads and writes of files. *)
Definition file_io (e : event) : bool :=
  match e with
  | ERead _ | EWrite _ => true
  | _ => false
  end.

(** The registry-qualified name under which a base image is pulled. *)
Definition ecr_image_name (X : Externals) (base_image : string) : string :=
  _get_docker_registry X (region X) +:+ "/" +:+ base_image.

(** The base image [build_image_s2i] resolves for a builder and its flags. *)
Definition resolved_base (X : Externals) (b : AiImageBuilder)
    (enable_cuda enable_eia cuda_devel : bool) : result string :=
  _get_base_name (current_env X) enable_eia (is_lambda (orchestrator b))
    enable_cuda cuda_devel (is_k8s (orchestrator b)) 1 false.

(** What change detection reports inside [build_image_s2i], which runs it
    from the build location. *)
Definition changes_detected (X : Externals) (b : AiImageBuilder) (w : World)
    : result bool :=
  outcome (_track_changes X b None (set_cwd (location b) w)).

(** The bytes change detection hashes for a tracked file. *)
Definition tracked_bytes (X : Externals) (w : World) (f : string) : option string :=
  match files w !! abspath w f with
  | Some (Raw s) => Some s
  | Some (Json d) => Some (json_dumps X d)
  | None => None
  end.

(** The entry change detection stores for a tracked file: the hash of
    its bytes. *)
Definition file_hash (X : Externals) (w : World) (f : string) : scalar :=
  VStr (sha256 X (default "" (tracked_bytes X w f))).

(** The dictionary a JSON file holds; a missing or unreadable one counts
    as empty. *)
Definition json_record (X : Externals) (w : World) (p : string) : gmap string scalar :=
  match files w !! p with
  | Some (Json d) => d
  | Some (Raw s) => default ∅ (json_loads X s)
  | None => ∅
  end.

(** The persisted hash record of a model name and version. *)
Definition hash_record (X : Externals) (b : AiImageBuilder)
    (cache_root : option string) (w : World) : gmap string scalar :=
  json_record X w (hash_file X b cache_root).

(** ** The claims that the code does not meet as they are worded *)



(** EIA on a Lambda orchestrator: the invalid-combination error, raised
    before any file is read or written and before any docker, registry or
    subprocess operation. *)
Definition eia_lambda_claim (X : Externals) (b : AiImageBuilder)
    (enable_cuda cuda_devel from_scratch always_download use_internal : bool)
    (w : World) : Prop :=
  let run := build_image_s2i X b (name b) (version b) enable_cuda true
               cuda_devel from_scratch always_download use_internal w in
  outcome run = Raise (ValueError "Cannot use EIA with other options")
  ∧ Forall (λ e, file_io e = false ∧ docker_io e = false) (log run).

(** The files [prepare_entrypoint] writes for an orchestrator. *)
Definition entrypoint_files (b : AiImageBuilder) : list string :=
  if is_serving (orchestrator b) then
    [path_join (location b) "handler.py";
     path_join (location b) "dockerd-entrypoint.py"]
  else if is_lambda (orchestrator b) then [path_join (location b) "handler.py"]
  else [].




(** * Properties *)

(** ** Deployment properties *)

Section DeploymentProperties.

(** Every manifest field is the override stored under its lookup key when
    that value is truthy, and the keyword argument (or its default)
    otherwise. *)
Lemma k8s_manifest_fields (kwargs kc : gmap string scalar) :
  let m := k8s_manifest kwargs kc in
  let ovr k dflt := py_or (dict_get kc k) (kwarg kwargs k dflt) in
  m !! "maxReplicaCount" = Some (ovr "maxReplicas" (VInt 5))
  ∧ m !! "minReplicaCount" = Some (ovr "minReplicas" (VInt 0))
  ∧ m !! "cooldownPeriod" = Some (ovr "cooldownPeriod" (VInt 1800))
  ∧ m !! "targetAverageUtilization"
      = Some (ovr "targetAverageUtilization" (VFloat 5 (-1)))
  ∧ m !! "gpuTargetAverageUtilization"
      = Some (ovr "gpuTargetAverageUtilization" (VInt 60))
  ∧ m !! "targetMemoryRequirement"
      = Some (ovr "targetMemoryRequirement" (VStr "512Mi"))
  ∧ m !! "targetMemoryLimit" = Some (ovr "targetMemoryLimit" (VStr "4Gi"))
  ∧ m !! "volumeMountName" = Some (ovr "volumeMountName" (VStr "efs-vpc"))
  ∧ m !! "mountPath" = Some (ovr "mountPath" (VStr "/shared"))
  ∧ m !! "numThreads" = Some (ovr "worker_count" (VInt 1))
  ∧ m !! "enableCuda" = Some (kwarg kwargs "enable_cuda" (VBool false)).
Proof.
  cbv zeta. unfold k8s_manifest.
  repeat split; by simplify_map_eq.
Qed.

Lemma py_or_truthy (a b : scalar) : truthy a = true → py_or a b = a.
Proof. unfold py_or. by intros ->. Qed.

Lemma py_or_absent (kc : gmap string scalar) (k : string) (b : scalar) :
  kc !! k = None → py_or (dict_get kc k) b = b.
Proof. unfold py_or, dict_get. by intros ->. Qed.

(** With nothing supplied the manifest is the table of defaults. *)
Lemma k8s_manifest_defaults :
  k8s_manifest ∅ ∅
  = list_to_map
      [("maxReplicaCount", VInt 5); ("minReplicaCount", VInt 0);
       ("cooldownPeriod", VInt 1800);
       ("targetAverageUtilization", VFloat 5 (-1));
       ("gpuTargetAverageUtilization", VInt 60);
       ("targetMemoryRequirement", VStr "512Mi");
       ("targetMemoryLimit", VStr "4Gi");
       ("volumeMountName", VStr "efs-vpc"); ("mountPath", VStr "/shared");
       ("numThreads", VInt 1); ("enableCuda", VBool false)].
Proof. by vm_compute. Qed.

(** On a Kubernetes-style orchestrator the manifest is returned under
    [kubernetes_config] and written to [<name>_config.json] in the build
    location. *)
Lemma k8s_properties_returned_and_written (b : AiImageBuilder)
    (properties : option Properties) (kwargs : gmap string scalar) (w : World) :
  is_k8s (orchestrator b) = true →
  let kc := default ∅ (kubernetes_config (default no_properties properties)) in
  let path := path_join (location b) (name b +:+ "_config.json") in
  let run := get_deployment_properties b properties kwargs w in
  (∃ p, outcome run = Ok p
        ∧ kubernetes_config p = Some (k8s_manifest kwargs kc))
  ∧ files (final run) !! path = Some (Json (k8s_manifest kwargs kc))
  ∧ log run = [EWrite path].
Proof.
  intros Hk. cbv zeta.
  unfold get_deployment_properties, _prepare_k8s_parameters. rewrite Hk.
  destruct (is_local (orchestrator b)); cbn;
    (split; [eexists; split; reflexivity|]); split; try reflexivity;
    by rewrite lookup_insert_eq.
Qed.

End DeploymentProperties.

(** C5, at a failing input: on AWS_EKS, with the caller's
    [kubernetes_config] holding [cooldownPeriod = 0] and no keyword
    arguments, the manifest returned under [kubernetes_config] has
    [cooldownPeriod = 1800]: the supplied value does not win over the
    default, because [0 or 1800] is [1800]. *)
Theorem C5_zero_override_replaced_by_default (w : World) :
  let properties := Some (mkProperties (Some {["cooldownPeriod" := VInt 0]}) ∅) in
  let run := get_deployment_properties (demo_builder AWS_EKS) properties ∅ w in
  ∃ p m, outcome run = Ok p
         ∧ kubernetes_config p = Some m
         ∧ m !! "cooldownPeriod" = Some (VInt 1800).
Proof.
  cbv zeta. eexists _, _. split; [reflexivity|]. split; [reflexivity|].
  by vm_compute.
Qed.



(** ** Base image resolver *)

(** C7: with CUDA requested, no CUDA-devel, no EIA, no Lambda mode, no
    Kubernetes mode, no internal use, and an active environment other than
    "dev", the resolver returns "superai-model-s2i-python3711-gpu:1". *)
Theorem C7_resolver_gpu_example (current_env : string) :
  current_env ≠ "dev" →
  _get_base_name current_env false false true false false 1 false
  = Ok "superai-model-s2i-python3711-gpu:1".
Proof.
  intros Hdev. unfold _get_base_name. cbn.
  destruct (String.eqb_spec current_env "dev"); [done|reflexivity].
Qed.

Lemma C7_resolver_gpu_example_witness :
  _get_base_name "prod" false false true false false 1 false
  = Ok "superai-model-s2i-python3711-gpu:1".
Proof. apply (C7_resolver_gpu_example "prod"). discriminate. Defined.

(** ** Reasoning about runs *)

Lemma run_eta {A} (x : result A * World * list event) :
  x = (outcome x, final x, log x).
Proof. by destruct x as [[??]?]. Qed.

Lemma bind_Ok_inv {A B} (m : M A) (k : A → M B) w b w' t :
  bind m k w = (Ok b, w', t) →
  ∃ a w1 t1 t2, m w = (Ok a, w1, t1) ∧ k a w1 = (Ok b, w', t2) ∧ t = t1 ++ t2.
Proof.
  unfold bind. destruct (m w) as [[[a|e] w1] t1]; [|done].
  destruct (k a w1) as [[r w2] t2] eqn:Hk. intros [= -> -> <-].
  by eexists _, _, _, _.
Qed.

Lemma bind_run {A B} (m : M A) (k : A → M B) w a w1 t1 :
  m w = (Ok a, w1, t1) →
  bind m k w = (outcome (k a w1), final (k a w1), t1 ++ log (k a w1)).
Proof. unfold bind. intros ->. by destruct (k a w1) as [[??]?]. Qed.

Lemma bind_raise {A B} (m : M A) (k : A → M B) w e w1 t1 :
  m w = (Raise e, w1, t1) → bind m k w = (Raise e, w1, t1).
Proof. unfold bind. by intros ->. Qed.

(** [keeps R m]: every run of [m] ends in a world related to the one it
    started in. *)
Definition keeps (R : relation World) {A} (m : M A) : Prop :=
  ∀ w, R w (final (m w)).

(** [logs P m]: every event a run of [m] logs satisfies [P]. *)
Definition logs (P : event → Prop) {A} (m : M A) : Prop :=
  ∀ w, Forall P (log (m w)).

Section Combinators.

Context (R : relation World) `{!PreOrder R} (P : event → Prop).

Lemma keeps_ret {A} (a : A) : keeps R (ret a).
Proof. intros w. reflexivity. Qed.

Lemma keeps_raise {A} e : keeps R (@raise A e).
Proof. intros w. reflexivity. Qed.

Lemma keeps_emit e : keeps R (emit e).
Proof. intros w. reflexivity. Qed.

Lemma keeps_get_world : keeps R get_world.
Proof. intros w. reflexivity. Qed.

Lemma keeps_lift {A} (r : result A) : keeps R (lift r).
Proof. destruct r; intros w; reflexivity. Qed.

Lemma keeps_modify f : (∀ w, R w (f w)) → keeps R (modify f).
Proof. intros Hf w. apply Hf. Qed.

Lemma keeps_bind {A B} (m : M A) (k : A → M B) :
  keeps R m → (∀ a, keeps R (k a)) → keeps R (bind m k).
Proof.
  intros Hm Hk w. specialize (Hm w). unfold final, bind in *.
  destruct (m w) as [[[a|e] w1] t1]; [|done].
  specialize (Hk a w1). unfold final in Hk.
  destruct (k a w1) as [[r w2] t2]. simpl in *. by etrans.
Qed.

Lemma keeps_try_finally {A} (m : M A) fin :
  keeps R m → keeps R fin → keeps R (try_finally m fin).
Proof.
  intros Hm Hf w. specialize (Hm w). unfold final, try_finally in *.
  destruct (m w) as [[r w1] t1]. specialize (Hf w1). unfold final in Hf.
  destruct (fin w1) as [[[[]|e] w2] t2]; simpl in *; by etrans.
Qed.

Lemma keeps_except {A} (m handler : M A) :
  keeps R m → keeps R handler → keeps R (except_ImageNotFound m handler).
Proof.
  intros Hm Hh w. specialize (Hm w). unfold final, except_ImageNotFound in *.
  destruct (m w) as [[[a|e] w1] t1]; [done|].
  destruct e; try done. specialize (Hh w1). unfold final in Hh.
  destruct (handler w1) as [[r w2] t2]. simpl in *. by etrans.
Qed.

Lemma logs_ret {A} (a : A) : logs P (ret a).
Proof. intros w. constructor. Qed.

Lemma logs_raise {A} e : logs P (@raise A e).
Proof. intros w. constructor. Qed.

Lemma logs_emit e : P e → logs P (emit e).
Proof. intros He w. by repeat constructor. Qed.

Lemma logs_get_world : logs P get_world.
Proof. intros w. constructor. Qed.

Lemma logs_lift {A} (r : result A) : logs P (lift r).
Proof. destruct r; intros w; constructor. Qed.

Lemma logs_modify f : logs P (modify f).
Proof. intros w. constructor. Qed.

Lemma logs_bind {A B} (m : M A) (k : A → M B) :
  logs P m → (∀ a, logs P (k a)) → logs P (bind m k).
Proof.
  intros Hm Hk w. specialize (Hm w). unfold log, bind in *.
  destruct (m w) as [[[a|e] w1] t1]; [|done].
  specialize (Hk a w1). unfold log in Hk.
  destruct (k a w1) as [[r w2] t2]. simpl in *. by apply Forall_app.
Qed.

Lemma logs_try_finally {A} (m : M A) fin :
  logs P m → logs P fin → logs P (try_finally m fin).
Proof.
  intros Hm Hf w. specialize (Hm w). unfold log, try_finally in *.
  destruct (m w) as [[r w1] t1]. specialize (Hf w1). unfold log in Hf.
  destruct (fin w1) as [[[[]|e] w2] t2]; simpl in *; by apply Forall_app.
Qed.

Lemma logs_except {A} (m handler : M A) :
  logs P m → logs P handler → logs P (except_ImageNotFound m handler).
Proof.
  intros Hm Hh w. specialize (Hm w). unfold log, except_ImageNotFound in *.
  destruct (m w) as [[[a|e] w1] t1]; [done|].
  destruct e; try done. specialize (Hh w1). unfold log in Hh.
  destruct (handler w1) as [[r w2] t2]. simpl in *. by apply Forall_app.
Qed.

End Combinators.

(** One step of a proof that a program keeps a relation or logs only
    certain events: split the program at its head. *)
Ltac step :=
  lazymatch goal with
  | |- keeps _ (bind _ _) => apply keeps_bind; [try apply _| |intros ?]
  | |- keeps _ (ret _) => apply keeps_ret; try apply _
  | |- keeps _ (raise _) => apply keeps_raise; try apply _
  | |- keeps _ (emit _) => apply keeps_emit; try apply _
  | |- keeps _ get_world => apply keeps_get_world; try apply _
  | |- keeps _ (lift _) => apply keeps_lift; try apply _
  | |- keeps _ (modify _) => apply keeps_modify; intros ?
  | |- keeps _ (try_finally _ _) => apply keeps_try_finally; [try apply _| |]
  | |- keeps _ (except_ImageNotFound _ _) => apply keeps_except; [try apply _| |]
  | |- keeps _ (if ?c then _ else _) => destruct c
  | |- keeps _ (match ?c with _ => _ end) => destruct c
  | |- logs _ (bind _ _) => apply logs_bind; [|intros ?]
  | |- logs _ (ret _) => apply logs_ret
  | |- logs _ (raise _) => apply logs_raise
  | |- logs _ (emit _) => apply logs_emit
  | |- logs _ get_world => apply logs_get_world
  | |- logs _ (lift _) => apply logs_lift
  | |- logs _ (modify _) => apply logs_modify
  | |- logs _ (try_finally _ _) => apply logs_try_finally
  | |- logs _ (except_ImageNotFound _ _) => apply logs_except
  | |- logs _ (if ?c then _ else _) => destruct c
  | |- logs _ (match ?c with _ => _ end) => destruct c
  end.

(** ** Frame conditions of the pipeline *)

(** The operations change the world only through the five setters. A
    relation that tolerates a setter is kept by every operation built
    from it; [writable] limits the paths that may be written. *)
Section Frames.

Context (X : Externals) (R : relation World) `{!PreOrder R}.
Context (writable : string → Prop).
Context (Hcwd : ∀ p w, R w (set_cwd p w)).
Context (Hdir : ∀ p w, R w (add_dir p w)).
Context (Hfile : ∀ p c w, writable p → R w (set_file p c w)).
Context (Himage : ∀ i w, R w (add_image i w)).
Context (Henv : ∀ e w, R w (set_environs e w)).

Lemma keeps_getcwd : keeps R getcwd.
Proof. intros w. unfold getcwd. case_decide; reflexivity. Qed.

Lemma keeps_chdir p : keeps R (chdir p).
Proof. intros w. unfold chdir. case_decide; [apply Hcwd|reflexivity]. Qed.

Lemma keeps_makedirs p : keeps R (makedirs p).
Proof. unfold makedirs. repeat step. apply Hdir. Qed.

Lemma keeps_path_exists p : keeps R (path_exists p).
Proof. unfold path_exists. repeat step. Qed.

Lemma keeps_read_file p : keeps R (read_file p).
Proof. unfold read_file. repeat step. Qed.

Lemma keeps_write_file p c : writable p → keeps R (write_file p c).
Proof. intros Hp. unfold write_file. repeat step. by apply Hfile. Qed.

Lemma keeps_json_load p : keeps R (json_load X p).
Proof. unfold json_load. step; [apply keeps_read_file|]. repeat step. Qed.

Lemma keeps_read_bytes f : keeps R (read_bytes X f).
Proof.
  unfold read_bytes. step; [step|]. step; [apply keeps_read_file|]. repeat step.
Qed.

Lemma keeps_environs_add_or_update k v : keeps R (environs_add_or_update k v).
Proof. unfold environs_add_or_update. repeat step. apply Henv. Qed.

Lemma keeps_environs_delete k : keeps R (environs_delete k).
Proof. unfold environs_delete. repeat step. apply Henv. Qed.

Lemma keeps_update_environs envs : keeps R (update_environs envs).
Proof.
  induction envs as [|[k v] envs IH]; simpl; [step|].
  step; [apply keeps_environs_add_or_update|done].
Qed.

Lemma keeps_system c : keeps R (system X c).
Proof. unfold system. repeat step; apply Himage. Qed.

Lemma keeps_images_get image : keeps R (images_get image).
Proof. unfold images_get. repeat step. Qed.

Lemma keeps_download base_image : keeps R (_download_base_image X base_image).
Proof.
  unfold _download_base_image.
  repeat first [apply keeps_system | apply keeps_images_get | step];
    apply Himage.
Qed.

Lemma keeps_prepare_entrypoint b cache workers :
  (∀ f, f ∈ entrypoint_files b → writable f) →
  keeps R (prepare_entrypoint X b cache workers).
Proof.
  intros Hw. unfold prepare_entrypoint, entrypoint_files in *.
  repeat first [apply keeps_write_file | step]; apply Hw; set_solver.
Qed.

Lemma keeps_hash_loop fs d c : keeps R (hash_loop X fs d c).
Proof.
  revert d c. induction fs as [|f fs IH]; intros d c; simpl; [step|].
  step; [apply keeps_read_bytes|apply IH].
Qed.

Lemma keeps_track_changes b cache_root :
  writable (hash_file X b cache_root) →
  writable (orchestrator_type_file X b cache_root) →
  keeps R (_track_changes X b cache_root).
Proof.
  intros Hh Ho. unfold _track_changes.
  repeat first
    [ apply keeps_makedirs | apply keeps_path_exists | apply keeps_json_load
    | apply keeps_hash_loop | by apply keeps_write_file | step ].
Qed.

Lemma keeps_create_prediction_image b src tgt lambda_mode k8s_mode :
  keeps R (_create_prediction_image_s2i X b src tgt lambda_mode k8s_mode).
Proof.
  unfold _create_prediction_image_s2i.
  repeat first [apply keeps_environs_add_or_update | apply keeps_system | step].
Qed.

Lemma keeps_require_s2i : keeps R (require_s2i X).
Proof. unfold require_s2i. repeat step. Qed.

Lemma keeps_build_image_s2i_body b image_name version_tag
    enable_cuda enable_eia cuda_devel from_scratch always_download use_internal :
  writable (hash_file X b None) →
  writable (orchestrator_type_file X b None) →
  keeps R (build_image_s2i_body X b image_name version_tag enable_cuda
             enable_eia cuda_devel from_scratch always_download use_internal).
Proof.
  intros Hh Ho. unfold build_image_s2i_body.
  repeat first
    [ apply keeps_chdir | by apply keeps_track_changes | apply keeps_download
    | apply keeps_images_get | apply keeps_require_s2i
    | apply keeps_environs_delete | apply keeps_environs_add_or_update
    | apply keeps_create_prediction_image | step ].
Qed.

End Frames.

(** Directories are only ever added. *)
Definition dirs_grow : relation World := λ w w', dirs w ⊆ dirs w'.

(** Local images are only ever added. *)
Definition images_grow : relation World := λ w w', images w ⊆ images w'.

(** The local images are the same. *)
Definition same_images : relation World := λ w w', images w' = images w.

(** The working directory is the same. *)
Definition same_cwd : relation World := λ w w', cwd w' = cwd w.

(** The files are the same away from the paths in [ps]. *)
Definition same_files_but (ps : list string) : relation World :=
  λ w w', ∀ p, p ∉ ps → files w' !! p = files w !! p.

#[local] Instance dirs_grow_po : PreOrder dirs_grow.
Proof. split; unfold dirs_grow; [intros ?|intros ???]; set_solver. Qed.

#[local] Instance images_grow_po : PreOrder images_grow.
Proof. split; unfold images_grow; [intros ?|intros ???]; set_solver. Qed.

#[local] Instance same_images_po : PreOrder same_images.
Proof. split; unfold same_images; [intros ?|intros ???]; congruence. Qed.

#[local] Instance same_cwd_po : PreOrder same_cwd.
Proof. split; unfold same_cwd; [intros ?|intros ???]; congruence. Qed.

#[local] Instance same_files_but_po ps : PreOrder (same_files_but ps).
Proof.
  split; unfold same_files_but; [by intros ?|].
  intros w1 w2 w3 H12 H23 p Hp. by rewrite H23, H12.
Qed.

(** ** Working directory *)

Lemma build_image_s2i_body_dirs_grow X b image_name version_tag
    enable_cuda enable_eia cuda_devel from_scratch always_download use_internal :
  keeps dirs_grow
    (build_image_s2i_body X b image_name version_tag enable_cuda enable_eia
       cuda_devel from_scratch always_download use_internal).
Proof.
  apply (keeps_build_image_s2i_body X dirs_grow (λ _, True));
    unfold dirs_grow; intros; simpl; set_solver.
Qed.

(** What the decorator guarantees for any decorated function that only
    adds directories. *)
Lemma reset_workdir_restores {A} (function : M A) (w : World) :
  keeps dirs_grow function →
  cwd (final (reset_workdir function w)) = cwd w.
Proof.
  intros Hgrow. unfold reset_workdir, bind, getcwd.
  case_decide as Hcwd; [|done].
  unfold try_finally. specialize (Hgrow w). unfold final in Hgrow.
  destruct (function w) as [[r w1] t1]. simpl in Hgrow.
  unfold chdir. rewrite decide_True by (by apply Hgrow). done.
Qed.

(** C8: for every invocation of build_image_s2i, whether it returns or
    raises, the working directory after the call is the one before it. *)
Theorem C8_working_directory_restored (X : Externals) (b : AiImageBuilder)
    (image_name version_tag : string)
    (enable_cuda enable_eia cuda_devel from_scratch always_download
     use_internal : bool) (w : World) :
  cwd (final (build_image_s2i X b image_name version_tag enable_cuda enable_eia
                cuda_devel from_scratch always_download use_internal w))
  = cwd w.
Proof.
  unfold build_image_s2i. apply reset_workdir_restores.
  apply build_image_s2i_body_dirs_grow.
Qed.

Example build_changes_directory_inside :
  let X := demo_externals true in
  let b := demo_builder LOCAL_DOCKER in
  cwd demo_world = "/home/u"
  ∧ log (build_image_s2i_body X b "m" "1" false false false false false false
           demo_world) !! 0%nat = Some (EChdir "/src/m")
  ∧ cwd (final (build_image_s2i_body X b "m" "1" false false false false false
                  false demo_world)) = "/src/m".
Proof. by vm_compute. Qed.

(** ** What each part of the pipeline logs *)

(** Events of the file system, the environment file and the working
    directory: the only ones change detection and preparation produce. *)
Definition local_event (e : event) : bool :=
  match e with
  | EChdir _ | EMakedirs _ | EExists _ | ERead _ | EWrite _ | EEnviron _ => true
  | _ => false
  end.

Section LocalLogs.

Context (X : Externals) (P : event → Prop).
Context (Hlocal : ∀ e, local_event e = true → P e).

Lemma logs_chdir p : logs P (chdir p).
Proof.
  intros w. unfold chdir. case_decide; repeat constructor; by apply Hlocal.
Qed.

Lemma logs_makedirs p : logs P (makedirs p).
Proof. unfold makedirs. repeat step. by apply Hlocal. Qed.

Lemma logs_path_exists p : logs P (path_exists p).
Proof. unfold path_exists. repeat step. by apply Hlocal. Qed.

Lemma logs_read_file p : logs P (read_file p).
Proof. unfold read_file. repeat step; by apply Hlocal. Qed.

Lemma logs_write_file p c : logs P (write_file p c).
Proof. unfold write_file. repeat step. by apply Hlocal. Qed.

Lemma logs_json_load p : logs P (json_load X p).
Proof. unfold json_load. step; [apply logs_read_file|]. repeat step. Qed.

Lemma logs_read_bytes f : logs P (read_bytes X f).
Proof.
  unfold read_bytes. step; [step|]. step; [apply logs_read_file|]. repeat step.
Qed.

Lemma logs_environs_add_or_update k v : logs P (environs_add_or_update k v).
Proof. unfold environs_add_or_update. repeat step. by apply Hlocal. Qed.

Lemma logs_environs_delete k : logs P (environs_delete k).
Proof. unfold environs_delete. repeat step. by apply Hlocal. Qed.

Lemma logs_hash_loop fs d c : logs P (hash_loop X fs d c).
Proof.
  revert d c. induction fs as [|f fs IH]; intros d c; simpl; [step|].
  step; [apply logs_read_bytes|apply IH].
Qed.

Lemma logs_track_changes b cache_root : logs P (_track_changes X b cache_root).
Proof.
  unfold _track_changes.
  repeat first
    [ apply logs_makedirs | apply logs_path_exists | apply logs_json_load
    | apply logs_hash_loop | apply logs_write_file | step ].
Qed.

End LocalLogs.

Lemma s2i_calls_app t1 t2 : s2i_calls (t1 ++ t2) = s2i_calls t1 ++ s2i_calls t2.
Proof. apply omap_app. Qed.

Lemma registry_pulls_app t1 t2 :
  registry_pulls (t1 ++ t2) = registry_pulls t1 ++ registry_pulls t2.
Proof. apply omap_app. Qed.

Lemma omap_none {A B} (f : A → option B) (l : list A) :
  Forall (λ x, f x = None) l → omap f l = [].
Proof. induction 1 as [|x l Hx _ IH]; simpl; [done|]. by rewrite Hx. Qed.

Lemma no_s2i_calls t : Forall (λ e, s2i_call e = None) t → s2i_calls t = [].
Proof. apply omap_none. Qed.

Lemma no_registry_pulls t :
  Forall (λ e, registry_pull e = None) t → registry_pulls t = [].
Proof. apply omap_none. Qed.

Lemma local_no_s2i_call e : local_event e = true → s2i_call e = None.
Proof. by destruct e. Qed.

Lemma local_no_registry_pull e : local_event e = true → registry_pull e = None.
Proof. by destruct e. Qed.

Lemma local_no_docker_io e : local_event e = true → docker_io e = false.
Proof. by destruct e. Qed.

(** An s2i run is logged exactly once by [_create_prediction_image_s2i],
    whether the subprocess succeeds or not, and nothing is pulled. *)
Lemma create_prediction_image_log X b src tgt lambda_mode k8s_mode w :
  let run := _create_prediction_image_s2i X b src tgt lambda_mode k8s_mode w in
  s2i_calls (log run) = [(src, tgt)] ∧ registry_pulls (log run) = [].
Proof.
  cbv zeta. unfold _create_prediction_image_s2i, system.
  destruct lambda_mode, k8s_mode; cbn;
    destruct (system_ok X _); cbn; done.
Qed.

Lemma create_prediction_image_run X b src tgt lambda_mode k8s_mode w r w' t :
  _create_prediction_image_s2i X b src tgt lambda_mode k8s_mode w = (r, w', t) →
  s2i_calls t = [(src, tgt)] ∧ registry_pulls t = [].
Proof.
  intros Hrun.
  pose proof (create_prediction_image_log X b src tgt lambda_mode k8s_mode w) as H.
  by rewrite Hrun in H.
Qed.

(** A download that returns has pulled the registry-qualified image once
    and leaves the base image in the local daemon. *)
Lemma download_base_image_Ok X base w w' t :
  _download_base_image X base w = (Ok tt, w', t) →
  registry_pulls t = [ecr_image_name X base]
  ∧ s2i_calls t = []
  ∧ base ∈ images w'
  ∧ images w ⊆ images w'.
Proof.
  unfold _download_base_image, system, images_get, ecr_image_name.
  unfold bind, emit, get_world, modify, ret, raise.
  destruct (login_ok X _); cbn; [|done].
  destruct (pull_ok X _); cbn; [|done].
  destruct (system_ok X _); cbn; [|done].
  case_decide; cbn; [|done].
  intros ?; simplify_eq. cbn.
  split; [done|]. split; [done|]. split.
  - apply elem_of_union_l. by apply elem_of_singleton.
  - intros i Hi. by do 3 apply elem_of_union_r.
Qed.

Lemma download_base_image_no_s2i X base :
  logs (λ e, s2i_call e = None) (_download_base_image X base).
Proof.
  unfold _download_base_image, system, images_get. repeat step; done.
Qed.

Lemma logs_run {A} P (m : M A) w r w' t :
  logs P m → m w = (r, w', t) → Forall P t.
Proof. intros Hm Hrun. specialize (Hm w). by rewrite Hrun in Hm. Qed.

Lemma keeps_run {A} R (m : M A) w r w' t :
  keeps R m → m w = (r, w', t) → R w w'.
Proof. intros Hm Hrun. specialize (Hm w). by rewrite Hrun in Hm. Qed.

Lemma chdir_Ok_inv p w w1 t1 :
  chdir p w = (Ok tt, w1, t1) → w1 = set_cwd p w ∧ t1 = [EChdir p].
Proof. unfold chdir. case_decide; [|done]. by intros [= <- <-]. Qed.

(** Change detection does not touch the local images. *)
Lemma track_changes_same_images X b cache_root :
  keeps same_images (_track_changes X b cache_root).
Proof. by apply (keeps_track_changes X same_images (λ _, True)). Qed.

(** Nor does it leave the working directory. *)
Lemma track_changes_same_cwd X b cache_root :
  keeps same_cwd (_track_changes X b cache_root).
Proof. by apply (keeps_track_changes X same_cwd (λ _, True)). Qed.

(** The lookup of the base image, with the download as fallback. *)
Lemma provision_Ok X base w w' t :
  except_ImageNotFound (images_get base) (_download_base_image X base) w
  = (Ok tt, w', t) →
  s2i_calls t = []
  ∧ images w ⊆ images w'
  ∧ (base ∈ images w → registry_pulls t = []).
Proof.
  unfold except_ImageNotFound, images_get at 1.
  unfold bind, emit, get_world, ret, raise. cbn -[_download_base_image].
  case_decide as Hin; cbn -[_download_base_image].
  - intros ?; by simplify_eq.
  - destruct (_download_base_image X base w) as [[r w2] t2] eqn:Hdl.
    intros ?; simplify_eq.
    apply download_base_image_Ok in Hdl as (_ & Hs & _ & Hi).
    change (EImageGet base :: t2) with ([EImageGet base] ++ t2).
    by rewrite s2i_calls_app, Hs.
Qed.

(** The decision whether stage 1 runs. *)
Lemma layer_decision_Ok (changes_in_build from_scratch : bool) pip w fs w' t :
  (if changes_in_build then ret true
   else except_ImageNotFound (do_ images_get pip; ret from_scratch) (ret true)) w
  = (Ok fs, w', t) →
  w' = w
  ∧ s2i_calls t = [] ∧ registry_pulls t = []
  ∧ fs = changes_in_build || from_scratch || bool_decide (pip ∉ images w).
Proof.
  destruct changes_in_build; [by intros [= <- <- <-]|].
  unfold except_ImageNotFound, images_get.
  unfold bind, emit, get_world, ret, raise. cbn.
  case_bool_decide as Hin; case_decide; try done; cbn;
    intros ?; simplify_eq; by rewrite ?orb_true_r, ?orb_false_r.
Qed.

(** ** The two-stage build *)

(** A run of the body that returns: what it returned, what change
    detection reported, and which s2i runs and registry pulls it logged. *)
Lemma build_image_s2i_body_Ok X b image_name version_tag
    enable_cuda enable_eia cuda_devel from_scratch always_download use_internal
    w r w' t :
  build_image_s2i_body X b image_name version_tag enable_cuda enable_eia
    cuda_devel from_scratch always_download use_internal w = (Ok r, w', t) →
  let pip := pip_layer image_name version_tag in
  let full := full_image_name image_name version_tag in
  ∃ changed base (stage1 : bool),
    outcome (_track_changes X b None (set_cwd (location b) w)) = Ok changed
    ∧ resolved_base X b enable_cuda enable_eia cuda_devel = Ok base
    ∧ r = full
    ∧ s2i_calls t = (if stage1 then [(base, pip)] else []) ++ [(pip, full)]
    ∧ (changed || from_scratch || always_download = true → stage1 = true)
    ∧ (changed || from_scratch || always_download = false →
       pip ∈ images w → stage1 = false)
    ∧ (always_download = true → registry_pulls t = [ecr_image_name X base]).
Proof.
  intros Hrun. cbv zeta. unfold build_image_s2i_body in Hrun.
  apply bind_Ok_inv in Hrun as ([] & w1 & t1 & ? & Hchdir & Hrun & ->).
  apply chdir_Ok_inv in Hchdir as [-> ->].
  apply bind_Ok_inv in Hrun as (changed & w2 & t2 & ? & Htrack & Hrun & ->).
  apply bind_Ok_inv in Hrun as ([] & w3 & t3 & ? & Hemit & Hrun & ->).
  apply bind_Ok_inv in Hrun as (base & w4 & t4 & ? & Hbase & Hrun & ->).
  apply bind_Ok_inv in Hrun as (fs1 & w5 & t5 & ? & Hforce & Hrun & ->).
  apply bind_Ok_inv in Hrun as ([] & w6 & t6 & ? & Hprov & Hrun & ->).
  apply bind_Ok_inv in Hrun as ([] & w7 & t7 & ? & Hwhich & Hrun & ->).
  apply bind_Ok_inv in Hrun as (fs2 & w8 & t8 & ? & Hdec & Hrun & ->).
  apply bind_Ok_inv in Hrun as ([] & w9 & t9 & ? & Hst1 & Hrun & ->).
  apply bind_Ok_inv in Hrun as ([] & w10 & t10 & ? & Henv & Hrun & ->).
  apply bind_Ok_inv in Hrun as ([] & w11 & t11 & ? & Hst2 & Hrun & ->).
  unfold ret in Hrun. simplify_eq.
  unfold emit in Hemit. simplify_eq.
  (* change detection *)
  pose proof (logs_run _ _ _ _ _ _
    (logs_track_changes X _ local_no_s2i_call b None) Htrack) as Ht2s.
  pose proof (logs_run _ _ _ _ _ _
    (logs_track_changes X _ local_no_registry_pull b None) Htrack) as Ht2p.
  pose proof (keeps_run _ _ _ _ _ _
    (track_changes_same_images X b None) Htrack) as Hi2.
  unfold same_images in Hi2. cbn in Hi2.
  (* the resolver *)
  assert (resolved_base X b enable_cuda enable_eia cuda_devel = Ok base
          ∧ w4 = w3 ∧ t4 = []) as (Hres & -> & ->).
  { unfold resolved_base. destruct (_get_base_name _ _ _ _ _ _ _ _);
      unfold lift, ret, raise in Hbase; by simplify_eq. }
  (* the forced download *)
  assert (s2i_calls t5 = [] ∧ images w3 ⊆ images w5
          ∧ fs1 = from_scratch || always_download
          ∧ (always_download = true →
             registry_pulls t5 = [ecr_image_name X base] ∧ base ∈ images w5)
          ∧ (always_download = false → registry_pulls t5 = []))
    as (Ht5s & Hi5 & -> & Ht5p & Ht5n).
  { destruct always_download.
    - apply bind_Ok_inv in Hforce as ([] & ? & ? & ? & Hdl & Hret & ->).
      unfold ret in Hret. simplify_eq. rewrite app_nil_r.
      apply download_base_image_Ok in Hdl as (? & ? & ? & ?).
      by rewrite orb_true_r.
    - unfold ret in Hforce. simplify_eq. by rewrite orb_false_r. }
  (* the lookup of the base image *)
  apply provision_Ok in Hprov as (Ht6s & Hi6 & Ht6p).
  (* s2i on the path *)
  assert (s2i_calls t7 = [] ∧ registry_pulls t7 = [] ∧ w7 = w6)
    as (Ht7s & Ht7p & ->).
  { unfold require_s2i, bind, emit, ret, raise in Hwhich.
    destruct (s2i_on_path X); by simplify_eq. }
  (* the layer decision and the two stages *)
  apply layer_decision_Ok in Hdec as (-> & Ht8s & Ht8p & ->).
  apply create_prediction_image_run in Hst2 as [Ht11s Ht11p].
  pose proof (logs_run _ _ _ _ _ _
    (logs_environs_add_or_update _ local_no_s2i_call _ _) Henv) as Ht10s.
  pose proof (logs_run _ _ _ _ _ _
    (logs_environs_add_or_update _ local_no_registry_pull _ _) Henv) as Ht10p.
  set (stage1 := changed || (from_scratch || always_download)
                 || bool_decide (pip_layer image_name version_tag ∉ images w6)).
  fold stage1 in Hst1.
  assert (s2i_calls t9
          = (if stage1 then [(base, pip_layer image_name version_tag)] else [])
          ∧ registry_pulls t9 = []) as [Ht9s Ht9p].
  { destruct stage1.
    - apply bind_Ok_inv in Hst1 as ([] & w9' & t9' & ? & Hdel & Hst1 & ->).
      apply create_prediction_image_run in Hst1 as [Hs Hp].
      rewrite s2i_calls_app, registry_pulls_app, Hs, Hp.
      rewrite (no_s2i_calls t9'), (no_registry_pulls t9'); [done|..].
      + eapply logs_run; [|exact Hdel].
        apply logs_environs_delete, local_no_registry_pull.
      + eapply logs_run; [|exact Hdel].
        apply logs_environs_delete, local_no_s2i_call.
    - unfold ret in Hst1. by simplify_eq. }
  exists changed, base, stage1.
  split; [by rewrite (run_eta (_track_changes _ _ _ _)) in Htrack; simplify_eq|].
  split; [done|]. split; [done|].
  split.
  { rewrite !s2i_calls_app, Ht9s, Ht11s, Ht5s, Ht6s, Ht7s, Ht8s.
    rewrite (no_s2i_calls t2), (no_s2i_calls t10) by done.
    done. }
  split.
  { subst stage1. intros Hor. rewrite <-orb_assoc in Hor.
    by rewrite Hor. }
  split.
  { subst stage1. intros Hor Hpip. rewrite <-orb_assoc in Hor. rewrite Hor. cbn.
    rewrite bool_decide_eq_false. intros Hnot. apply Hnot.
    apply Hi6, Hi5. by rewrite Hi2. }
  intros ->. destruct (Ht5p eq_refl) as [Hp5 Hb5].
  rewrite !registry_pulls_app, Hp5, (Ht6p Hb5), Ht7p, Ht8p, Ht9p, Ht11p.
  rewrite (no_registry_pulls t2), (no_registry_pulls t10) by done.
  done.
Qed.

(** The decorator, started in an existing directory, around a function
    that only adds directories: same outcome, same log followed by the
    change back. *)
Lemma reset_workdir_run {A} (function : M A) (w : World) :
  cwd w ∈ dirs w → keeps dirs_grow function →
  reset_workdir function w
  = (outcome (function w), set_cwd (cwd w) (final (function w)),
     log (function w) ++ [EChdir (cwd w)]).
Proof.
  intros Hcwd Hgrow. unfold reset_workdir, bind, getcwd.
  rewrite decide_True by done. unfold try_finally.
  specialize (Hgrow w). unfold final in Hgrow.
  destruct (function w) as [[r w1] t1]. simpl in Hgrow.
  unfold chdir. rewrite decide_True by (by apply Hgrow). done.
Qed.

Lemma reset_workdir_no_cwd {A} (function : M A) (w : World) :
  cwd w ∉ dirs w →
  reset_workdir function w = (Raise (FileNotFoundError (cwd w)), w, []).
Proof.
  intros Hcwd. unfold reset_workdir, bind, getcwd. by rewrite decide_False.
Qed.

Lemma build_image_s2i_Ok X b image_name version_tag
    enable_cuda enable_eia cuda_devel from_scratch always_download use_internal
    w r :
  let run := build_image_s2i X b image_name version_tag enable_cuda enable_eia
               cuda_devel from_scratch always_download use_internal w in
  let body := build_image_s2i_body X b image_name version_tag enable_cuda
                enable_eia cuda_devel from_scratch always_download use_internal w in
  outcome run = Ok r →
  body = (Ok r, final body, log body)
  ∧ s2i_calls (log run) = s2i_calls (log body)
  ∧ registry_pulls (log run) = registry_pulls (log body).
Proof.
  cbv zeta. unfold build_image_s2i. intros Hrun.
  destruct (decide (cwd w ∈ dirs w)) as [Hcwd|Hcwd].
  - rewrite reset_workdir_run in Hrun |- *
      by (done || apply build_image_s2i_body_dirs_grow).
    set (body := build_image_s2i_body _ _ _ _ _ _ _ _ _ _ w) in *.
    change (outcome body = Ok r) in Hrun.
    change (log (_, _, ?t)) with t.
    rewrite s2i_calls_app, registry_pulls_app, <-Hrun.
    split; [apply run_eta|]. split; apply app_nil_r.
  - by rewrite reset_workdir_no_cwd in Hrun.
Qed.







(** ** Invalid flag combinations *)

Lemma resolved_base_eia_lambda X b enable_cuda cuda_devel :
  is_lambda (orchestrator b) = true →
  resolved_base X b enable_cuda true cuda_devel
  = Raise (ValueError "Cannot use EIA with other options").
Proof. unfold resolved_base, _get_base_name. by intros ->. Qed.

(** When the resolver refuses the flags, the body stops there: it has
    changed directory and run change detection, and nothing else. *)
Lemma build_image_s2i_body_resolver_raises X b image_name version_tag
    enable_cuda enable_eia cuda_devel from_scratch always_download use_internal
    w e :
  resolved_base X b enable_cuda enable_eia cuda_devel = Raise e →
  let run := build_image_s2i_body X b image_name version_tag enable_cuda
               enable_eia cuda_devel from_scratch always_download use_internal w in
  Forall (λ ev, docker_io ev = false) (log run)
  ∧ outcome run
    = if decide (location b ∈ dirs w) then
        match changes_detected X b w with
        | Ok _ => Raise e
        | Raise e' => Raise e'
        end
      else Raise (FileNotFoundError (location b)).
Proof.
  intros Hres. cbv zeta. unfold build_image_s2i_body, changes_detected.
  unfold resolved_base in Hres. rewrite Hres.
  case_decide as Hloc.
  - rewrite (bind_run _ _ w tt (set_cwd (location b) w) [EChdir (location b)])
      by (unfold chdir; by rewrite decide_True).
    pose proof (logs_track_changes X _ local_no_docker_io b None
                  (set_cwd (location b) w)) as Hlog.
    destruct (_track_changes X b None (set_cwd (location b) w))
      as [[[c|e'] w2] t2] eqn:Htrack.
    + rewrite (bind_run _ _ _ _ _ _ Htrack).
      unfold bind, emit, lift, raise. cbn. split; [|done].
      constructor; [done|]. apply Forall_app. split; [done|].
      by repeat constructor.
    + rewrite (bind_raise _ _ _ _ _ _ Htrack). cbn. split; [|done].
      by constructor.
  - rewrite (bind_raise _ _ w (FileNotFoundError (location b)) w
               [EChdir (location b)])
      by (unfold chdir; by rewrite decide_False).
    split; [|done]. by repeat constructor.
Qed.

(** C4, as stated, fails on every such build: change detection runs
    before the flags are checked, so the hash record has been written (the
    fourth logged operation here) when the error is raised. *)
Lemma C4_cache_written_counterexample :
  ¬ eia_lambda_claim (demo_externals true) (demo_builder LOCAL_DOCKER_LAMBDA)
      false false false false false demo_world.
Proof.
  intros [_ H].
  apply (Forall_lookup_1 _ _ 3%nat
           (EWrite "/home/u/.superai/cache/m/1/.hash.json")) in H;
    [|by vm_compute].
  by destruct H.
Qed.

(** C4, amended: every invocation of build_image_s2i with enable_eia =
    true on a Lambda-mode orchestrator fails, and no image lookup,
    registry operation or build-tool invocation happens in it; the error
    is the invalid-combination error whenever the process can enter the
    build location and change detection, which runs first and reads and
    rewrites the cache files, completes. *)
Theorem C4_eia_with_lambda_fails_before_docker (X : Externals)
    (b : AiImageBuilder) (image_name version_tag : string)
    (enable_cuda cuda_devel from_scratch always_download use_internal : bool)
    (w : World) :
  is_lambda (orchestrator b) = true →
  let run := build_image_s2i X b image_name version_tag enable_cuda true
               cuda_devel from_scratch always_download use_internal w in
  Forall (λ ev, docker_io ev = false) (log run)
  ∧ outcome run
    = if decide (cwd w ∈ dirs w) then
        if decide (location b ∈ dirs w) then
          match changes_detected X b w with
          | Ok _ => Raise (ValueError "Cannot use EIA with other options")
          | Raise e' => Raise e'
          end
        else Raise (FileNotFoundError (location b))
      else Raise (FileNotFoundError (cwd w)).
Proof.
  intros Hlambda. cbv zeta. unfold build_image_s2i.
  case_decide as Hcwd.
  - rewrite reset_workdir_run
      by (done || apply build_image_s2i_body_dirs_grow).
    destruct (build_image_s2i_body_resolver_raises X b image_name version_tag
                enable_cuda true cuda_devel from_scratch always_download
                use_internal w _ (resolved_base_eia_lambda X b _ _ Hlambda))
      as [Hlog Hout].
    split; [|exact Hout].
    change (log (_, _, ?t)) with t. apply Forall_app. split; [done|].
    by repeat constructor.
  - rewrite reset_workdir_no_cwd by done. split; [constructor|done].
Qed.

Lemma C4_eia_with_lambda_fails_before_docker_witness :
  let run := build_image_s2i (demo_externals true)
               (demo_builder LOCAL_DOCKER_LAMBDA) "m" "1" false true false
               false false false demo_world in
  Forall (λ ev, docker_io ev = false) (log run)
  ∧ outcome run = Raise (ValueError "Cannot use EIA with other options").
Proof.
  cbv zeta.
  destruct (C4_eia_with_lambda_fails_before_docker (demo_externals true)
              (demo_builder LOCAL_DOCKER_LAMBDA) "m" "1" false false false
              false false demo_world eq_refl) as [Hlog Hout].
  split; [exact Hlog|]. rewrite Hout. by vm_compute.
Defined.

(** ** Skipping the build *)

Lemma update_environs_run envs w :
  ∃ w', update_environs envs w = (Ok tt, w', (λ kv, EEnviron kv.1) <$> envs).
Proof.
  revert w. induction envs as [|[k v] envs IH]; intros w; [by eexists|].
  cbn [update_environs].
  destruct (IH (set_environs (env_add_or_update k v (environs w)) w))
    as [w' Hrest].
  exists w'.
  rewrite (bind_run _ _ w tt
             (set_environs (env_add_or_update k v (environs w)) w)
             [EEnviron k]) by done.
  by rewrite Hrest.
Qed.


(** On MINIKUBE, which has no entrypoint strategy, [build_image] stops in
    [prepare_entrypoint], with or without [skip_build]. *)
Lemma build_image_minikube X b cuda_devel enable_cuda enable_eia skip_build
    build_all_layers download_base properties use_internal kwargs w :
  orchestrator b = MINIKUBE →
  outcome (build_image X b cuda_devel enable_cuda enable_eia skip_build
             build_all_layers download_base properties use_internal kwargs w)
  = Raise NotImplementedError.
Proof.
  intros Ho. unfold build_image.
  destruct (update_environs_run (kw_envs kwargs) w) as [w1 Henv].
  rewrite (bind_run _ _ _ _ _ _ Henv).
  unfold prepare, prepare_entrypoint. rewrite Ho. done.
Qed.




(** ** Paths of the cache files and of the tracked files *)

Fixpoint chars (s : string) : list Ascii.ascii :=
  match s with
  | EmptyString => []
  | String c r => c :: chars r
  end.

(** The last five characters, last first. *)
Definition suffix5 (s : string) : list Ascii.ascii := take 5 (reverse (chars s)).

Lemma chars_app a b : chars (a +:+ b) = chars a ++ chars b.
Proof.
  induction a as [|c a IH]; [done|].
  change (String c a +:+ b) with (String c (a +:+ b)). cbn. by rewrite IH.
Qed.

Lemma suffix5_app a b :
  (5 ≤ length (chars b))%nat → suffix5 (a +:+ b) = suffix5 b.
Proof.
  intros Hlen. unfold suffix5.
  rewrite chars_app, reverse_app, take_app_le; [done|].
  by rewrite length_reverse.
Qed.

(** Joining a file name of five characters or more that is not absolute
    keeps the end of the name. *)
Lemma suffix5_path_join a b :
  starts_with_slash b = false → (5 ≤ length (chars b))%nat →
  suffix5 (path_join a b) = suffix5 b.
Proof.
  intros Hb Hlen. unfold path_join. rewrite Hb.
  destruct (_ || _); rewrite ?suffix5_app; try done.
  rewrite chars_app, length_app. lia.
Qed.

Lemma tracked_files_names b f :
  f ∈ tracked_files b →
  f = "requirements.txt" ∨ f = "environment.yml" ∨ f = "setup.sh".
Proof.
  unfold tracked_files. rewrite !elem_of_app.
  intros [H|[H|H]]; repeat case_match;
    first [by apply elem_of_nil in H | apply list_elem_of_singleton in H; auto].
Qed.

Lemma tracked_files_NoDup b : NoDup (tracked_files b).
Proof.
  unfold tracked_files.
  destruct (requirements b) as [[|??]|], (conda_env b) as [env|],
    (artifacts b) as [arts|];
    repeat case_match; by apply (bool_decide_unpack _).
Qed.

Section CachePaths.

Context (X : Externals) (b : AiImageBuilder) (cache_root : option string).

Lemma hash_file_ne_orchestrator_type_file :
  hash_file X b cache_root ≠ orchestrator_type_file X b cache_root.
Proof.
  unfold hash_file, orchestrator_type_file. intros Heq.
  apply (f_equal suffix5) in Heq.
  rewrite !suffix5_path_join in Heq by (done || cbn; lia). done.
Qed.

Lemma tracked_path_ne_hash_file w f :
  f ∈ tracked_files b → abspath w f ≠ hash_file X b cache_root.
Proof.
  intros Hf Heq. unfold abspath, hash_file in Heq.
  apply (f_equal suffix5) in Heq.
  apply tracked_files_names in Hf as [-> | [-> | ->]];
    rewrite !suffix5_path_join in Heq by (done || cbn; lia); done.
Qed.

Lemma tracked_path_ne_orchestrator_type_file w f :
  f ∈ tracked_files b → abspath w f ≠ orchestrator_type_file X b cache_root.
Proof.
  intros Hf Heq. unfold abspath, orchestrator_type_file in Heq.
  apply (f_equal suffix5) in Heq.
  apply tracked_files_names in Hf as [-> | [-> | ->]];
    rewrite !suffix5_path_join in Heq by (done || cbn; lia); done.
Qed.

End CachePaths.

(** ** Change detection *)

Lemma str_ne_true s (d : gmap string scalar) f :
  str_ne s (dict_get d f) = true ↔ d !! f ≠ Some (VStr s).
Proof.
  unfold str_ne, dict_get. destruct (d !! f) as [[| | | |s']|]; cbn;
    try (split; [congruence|done]).
  destruct (String.eqb_spec s s'); cbn; split; congruence.
Qed.

Lemma str_ne_false s (d : gmap string scalar) f :
  str_ne s (dict_get d f) = false ↔ d !! f = Some (VStr s).
Proof.
  rewrite <-not_true_iff_false, str_ne_true.
  destruct (decide (d !! f = Some (VStr s))); naive_solver.
Qed.

Lemma orch_value_inj : Inj (=) (=) orch_value.
Proof. intros [] []; by intros [=]. Qed.

Lemma read_bytes_run X f w :
  read_bytes X f w
  = match tracked_bytes X w f with
    | Some data => (Ok data, w, [ERead (abspath w f)])
    | None => (Raise (FileNotFoundError (abspath w f)), w, [ERead (abspath w f)])
    end.
Proof.
  unfold read_bytes, tracked_bytes, read_file, bind, get_world, emit, ret, raise.
  cbn. by destruct (files w !! abspath w f) as [[]|].
Qed.

Lemma json_load_run X p w :
  json_load X p w
  = match files w !! p with
    | Some (Json d) => (Ok d, w, [ERead p])
    | Some (Raw s) =>
        match json_loads X s with
        | Some d => (Ok d, w, [ERead p])
        | None => (Raise (JSONDecodeError p), w, [ERead p])
        end
    | None => (Raise (FileNotFoundError p), w, [ERead p])
    end.
Proof.
  unfold json_load, read_file, bind, get_world, emit, ret, raise. cbn.
  destruct (files w !! p) as [[s|d]|]; [|done..].
  by destruct (json_loads X s).
Qed.

Lemma json_load_Ok_inv X p w d w' t :
  json_load X p w = (Ok d, w', t) →
  w' = w ∧ d = json_record X w p ∧ is_Some (files w !! p).
Proof.
  rewrite json_load_run. unfold json_record.
  destruct (files w !! p) as [[s|d0]|]; [|by intros; simplify_eq..].
  destruct (json_loads X s); by intros; simplify_eq.
Qed.

(** The loop returns when every tracked file can be read; it leaves the
    world alone, stores the hash of each file under its name, and reports
    a change when the incoming record held another entry, or none, for
    one of the files. *)
Lemma hash_loop_Ok_inv X fs d c w d' c' w' t :
  hash_loop X fs d c w = (Ok (d', c'), w', t) →
  w' = w
  ∧ (∀ f, f ∈ fs → is_Some (tracked_bytes X w f))
  ∧ (∀ f, d' !! f = if decide (f ∈ fs) then Some (file_hash X w f) else d !! f)
  ∧ (NoDup fs →
     c' = true ↔ c = true ∨ ∃ f, f ∈ fs ∧ d !! f ≠ Some (file_hash X w f)).
Proof.
  revert d c t. induction fs as [|f0 fs IH]; intros d c t Hrun.
  { unfold hash_loop, ret in Hrun. simplify_eq.
    split; [done|]. split; [by intros ? ?%elem_of_nil|]. split; [done|].
    intros _. split; [auto|]. intros [?|(? & ?%elem_of_nil & _)]; done. }
  cbn [hash_loop] in Hrun.
  apply bind_Ok_inv in Hrun as (data & w1 & t1 & t2 & Hread & Hrun & ->).
  rewrite read_bytes_run in Hread.
  destruct (tracked_bytes X w f0) as [data0|] eqn:Hdata; [|done].
  injection Hread as ? ? ?. subst data w1 t1.
  apply IH in Hrun as (-> & Hall & Hd' & Hc').
  rename data0 into data.
  assert (file_hash X w f0 = VStr (sha256 X data)) as Hh
    by (unfold file_hash; by rewrite Hdata).
  split; [done|]. split.
  { intros f [->|?]%elem_of_cons; [by rewrite Hdata|by apply Hall]. }
  split.
  { intros f. rewrite Hd'. destruct (decide (f = f0)) as [->|Hne].
    - rewrite (decide_True (P := f0 ∈ f0 :: fs)) by apply list_elem_of_here.
      case_decide; [done|]. by rewrite lookup_insert_eq, Hh.
    - rewrite lookup_insert_ne by done.
      destruct (decide (f ∈ fs)) as [Hin|Hnin].
      + by rewrite decide_True by (by apply list_elem_of_further).
      + rewrite decide_False; [done|]. by intros [?|?]%elem_of_cons. }
  intros [Hf0 Hnd]%NoDup_cons. rewrite (Hc' Hnd). rewrite <-Hh.
  split.
  - intros [Hc|(f & Hf & Hne)].
    + destruct (str_ne _ _) eqn:Hs; [|by left]. right. exists f0.
      split; [apply list_elem_of_here|]. rewrite Hh. by apply str_ne_true.
    + right. exists f. split; [by apply list_elem_of_further|].
      rewrite lookup_insert_ne in Hne; [done|]. by intros ->.
  - intros [->|(f & [->|Hf]%elem_of_cons & Hne)].
    + left. by destruct (str_ne _ _).
    + left. rewrite Hh in Hne. apply str_ne_true in Hne. by rewrite Hne.
    + right. exists f. split; [done|]. rewrite lookup_insert_ne; [done|].
      by intros ->.
Qed.

(** If every tracked file can be read the loop returns. *)
Lemma hash_loop_returns X fs d c w :
  (∀ f, f ∈ fs → is_Some (tracked_bytes X w f)) →
  ∃ d' c' t, hash_loop X fs d c w = (Ok (d', c'), w, t).
Proof.
  revert d c. induction fs as [|f0 fs IH]; intros d c Hall; [by eexists _, _, _|].
  cbn [hash_loop].
  destruct (Hall f0) as [data Hdata]; [apply list_elem_of_here|].
  edestruct IH as (d' & c' & t & Hrest).
  { intros f Hf. apply Hall. by apply list_elem_of_further. }
  exists d', c'. eexists.
  erewrite bind_run by (by rewrite read_bytes_run, Hdata).
  by rewrite Hrest.
Qed.

(** The step that creates a missing JSON file before it is loaded. *)
Lemma ensure_json_file_Ok X (present : bool) p w w1 t1 d w2 t2 :
  present = bool_decide (is_Some (files w !! p)) || bool_decide (p ∈ dirs w) →
  (if present then ret tt else write_file p (Json ∅)) w = (Ok tt, w1, t1) →
  json_load X p w1 = (Ok d, w2, t2) →
  w2 = w1
  ∧ d = json_record X w p
  ∧ cwd w1 = cwd w
  ∧ (∀ q, q ≠ p → files w1 !! q = files w !! q).
Proof.
  intros -> Hensure Hload.
  apply json_load_Ok_inv in Hload as (-> & -> & Hsome).
  destruct (bool_decide (is_Some (files w !! p))) eqn:Hfile; cbn in Hensure.
  - unfold ret in Hensure. by simplify_eq.
  - apply bool_decide_eq_false in Hfile.
    destruct (files w !! p) eqn:Hp; [by destruct Hfile|].
    destruct (bool_decide (p ∈ dirs w)); cbn in Hensure.
    + unfold ret in Hensure. simplify_eq. rewrite Hp in Hsome.
      by destruct Hsome.
    + unfold write_file, bind, emit, modify in Hensure. simplify_eq.
      split; [done|]. split; [|split; [done|]].
      * unfold json_record. cbn. by rewrite lookup_insert_eq, Hp.
      * intros q Hq. cbn. by rewrite lookup_insert_ne.
Qed.

Lemma path_exists_Ok_inv p w present w' t :
  path_exists p w = (Ok present, w', t) →
  w' = w
  ∧ present = bool_decide (is_Some (files w !! p)) || bool_decide (p ∈ dirs w).
Proof.
  unfold path_exists, bind, get_world, emit, ret. cbn. by intros; simplify_eq.
Qed.

Lemma write_file_Ok_inv p c w w' t :
  write_file p c w = (Ok tt, w', t) → w' = set_file p c w.
Proof. unfold write_file, bind, emit, modify. cbn. by intros; simplify_eq. Qed.

(** A run of change detection that returns: every tracked file could be
    read; the hash file now holds the old record with the hash of each
    tracked file stored under its name; the orchestrator file holds this
    builder's orchestrator; a change is reported exactly when some tracked
    file's hash was not the recorded one or the recorded orchestrator was
    another one; and no other file was touched. *)
Lemma track_changes_Ok_inv X b cache_root w c w' t :
  _track_changes X b cache_root w = (Ok c, w', t) →
  let hf := hash_file X b cache_root in
  let otf := orchestrator_type_file X b cache_root in
  (∀ f, f ∈ tracked_files b → is_Some (tracked_bytes X w f))
  ∧ (∃ new_hash,
       files w' !! hf = Some (Json new_hash)
       ∧ ∀ f, new_hash !! f
              = if decide (f ∈ tracked_files b) then Some (file_hash X w f)
                else hash_record X b cache_root w !! f)
  ∧ files w' !! otf
    = Some (Json {["orchestrator" := VStr (orch_value (orchestrator b))]})
  ∧ (c = true ↔
     (∃ f, f ∈ tracked_files b
           ∧ hash_record X b cache_root w !! f ≠ Some (file_hash X w f))
     ∨ json_record X w otf !! "orchestrator"
       ≠ Some (VStr (orch_value (orchestrator b))))
  ∧ (∀ p, p ≠ hf → p ≠ otf → files w' !! p = files w !! p)
  ∧ cwd w' = cwd w.
Proof.
  intros Hrun. cbv zeta. unfold _track_changes in Hrun.
  pose proof (hash_file_ne_orchestrator_type_file X b cache_root) as Hne.
  set (hf := hash_file X b cache_root) in *.
  set (otf := orchestrator_type_file X b cache_root) in *.
  apply bind_Ok_inv in Hrun as ([] & w0 & t0 & ? & Hmk & Hrun & ->).
  unfold makedirs, bind, emit, modify in Hmk. cbn in Hmk.
  injection Hmk as <- <-.
  apply bind_Ok_inv in Hrun as (present & ? & ? & ? & Hex & Hrun & ->).
  apply path_exists_Ok_inv in Hex as [-> Hpresent].
  apply bind_Ok_inv in Hrun as ([] & w1 & t1 & ? & Hens & Hrun & ->).
  apply bind_Ok_inv in Hrun as (d & ? & ? & ? & Hload & Hrun & ->).
  destruct (ensure_json_file_Ok _ _ _ _ _ _ _ _ _ Hpresent Hens Hload)
    as (-> & Hd & Hcwd1 & Hfiles1).
  apply bind_Ok_inv in Hrun as ([d' c1] & ? & ? & ? & Hloop & Hrun & ->).
  apply hash_loop_Ok_inv in Hloop as (-> & Hall & Hd' & Hc1).
  apply bind_Ok_inv in Hrun as ([] & w2 & ? & ? & Hwr & Hrun & ->).
  apply write_file_Ok_inv in Hwr as ->.
  apply bind_Ok_inv in Hrun as (present2 & ? & ? & ? & Hex2 & Hrun & ->).
  apply path_exists_Ok_inv in Hex2 as [-> Hpresent2].
  apply bind_Ok_inv in Hrun as ([] & w3 & ? & ? & Hens2 & Hrun & ->).
  apply bind_Ok_inv in Hrun as (d_o & ? & ? & ? & Hload2 & Hrun & ->).
  destruct (ensure_json_file_Ok _ _ _ _ _ _ _ _ _ Hpresent2 Hens2 Hload2)
    as (-> & Hdo & Hcwd3 & Hfiles3).
  apply bind_Ok_inv in Hrun as ([] & w4 & ? & ? & Hwr2 & Hrun & ->).
  apply write_file_Ok_inv in Hwr2 as ->.
  unfold ret in Hrun. injection Hrun as <- <- _.
  (* what the tracked files and the records were at the start *)
  assert (∀ f, f ∈ tracked_files b → tracked_bytes X w1 f = tracked_bytes X w f)
    as Hbytes.
  { intros f Hf. unfold tracked_bytes, abspath. rewrite Hcwd1. cbn.
    rewrite Hfiles1; [done|].
    apply (tracked_path_ne_hash_file X b cache_root w f Hf). }
  assert (∀ f, f ∈ tracked_files b → file_hash X w1 f = file_hash X w f)
    as Hhash.
  { intros f Hf. unfold file_hash. by rewrite Hbytes. }
  assert (d = hash_record X b cache_root w) as -> by done.
  assert (d_o = json_record X w otf) as ->.
  { rewrite Hdo. unfold json_record. cbn.
    rewrite lookup_insert_ne by done. by rewrite Hfiles1. }
  split.
  { intros f Hf. rewrite <-Hbytes by done. by apply Hall. }
  split.
  { exists d'. split.
    - cbn. rewrite lookup_insert_ne by done.
      rewrite Hfiles3 by done. cbn. by rewrite lookup_insert_eq.
    - intros f. rewrite Hd'.
      destruct (decide (f ∈ tracked_files b)); [by rewrite Hhash|done]. }
  split; [cbn; by rewrite lookup_insert_eq|].
  split.
  { rewrite <-str_ne_true.
    destruct (str_ne _ (dict_get (json_record X w otf) _)) eqn:Hs.
    - split; [by right|done].
    - rewrite (Hc1 (tracked_files_NoDup b)). split.
      + intros [?|(f & Hf & Hx)]; [done|]. left. exists f.
        split; [done|]. by rewrite <-Hhash.
      + intros [(f & Hf & Hx)|?]; [|done]. right. exists f.
        split; [done|]. by rewrite Hhash. }
  split.
  { intros p Hp1 Hp2. cbn. rewrite lookup_insert_ne by done.
    rewrite Hfiles3 by done. cbn. rewrite lookup_insert_ne by done.
    by rewrite Hfiles1. }
  cbn. rewrite Hcwd3. cbn. by rewrite Hcwd1.
Qed.

Lemma bind_returns {A B} (m : M A) (k : A → M B) w a w1 t1 :
  m w = (Ok a, w1, t1) →
  (∃ b w2 t2, k a w1 = (Ok b, w2, t2)) →
  ∃ b w2 t2, bind m k w = (Ok b, w2, t2).
Proof.
  intros Hm (b & w2 & t2 & Hk). exists b, w2, (t1 ++ t2).
  by rewrite (bind_run _ _ _ _ _ _ Hm), Hk.
Qed.

Lemma path_exists_run p w :
  path_exists p w
  = (Ok (bool_decide (is_Some (files w !! p)) || bool_decide (p ∈ dirs w)),
     w, [EExists p]).
Proof. done. Qed.

Lemma json_load_Json X p w d :
  files w !! p = Some (Json d) → json_load X p w = (Ok d, w, [ERead p]).
Proof. intros Hp. by rewrite json_load_run, Hp. Qed.

(** Change detection returns when both cache files are there, as an
    earlier run left them, and every tracked file can be read. *)
Lemma track_changes_returns X b cache_root w d1 d2 :
  files w !! hash_file X b cache_root = Some (Json d1) →
  files w !! orchestrator_type_file X b cache_root = Some (Json d2) →
  (∀ f, f ∈ tracked_files b → is_Some (tracked_bytes X w f)) →
  ∃ c w' t, _track_changes X b cache_root w = (Ok c, w', t).
Proof.
  intros Hhf Hotf Hall. unfold _track_changes.
  pose proof (hash_file_ne_orchestrator_type_file X b cache_root) as Hne.
  set (hf := hash_file X b cache_root) in *.
  set (otf := orchestrator_type_file X b cache_root) in *.
  set (w0 := add_dir (cache_folder X b cache_root) w).
  eapply (bind_returns _ _ w tt w0); [done|].
  assert (files w0 !! hf = Some (Json d1)) as Hhf0 by done.
  eapply (bind_returns _ _ w0 true w0).
  { by rewrite path_exists_run, Hhf0, bool_decide_eq_true_2. }
  eapply (bind_returns _ _ w0 tt w0); [done|].
  eapply (bind_returns _ _ w0 d1 w0); [by apply json_load_Json|].
  destruct (hash_loop_returns X (tracked_files b) d1 false w0)
    as (d' & c' & t & Hloop); [done|].
  eapply (bind_returns _ _ w0 (d', c') w0); [exact Hloop|].
  set (w2 := set_file hf (Json d') w0).
  eapply (bind_returns _ _ w0 tt w2); [done|].
  assert (files w2 !! otf = Some (Json d2)) as Hotf2.
  { subst w2. cbn. by rewrite lookup_insert_ne. }
  eapply (bind_returns _ _ w2 true w2).
  { by rewrite path_exists_run, Hotf2, bool_decide_eq_true_2. }
  eapply (bind_returns _ _ w2 tt w2); [done|].
  eapply (bind_returns _ _ w2 d2 w2); [by apply json_load_Json|].
  eapply (bind_returns _ _ w2 tt); [done|].
  by eexists _, _, _.
Qed.

(** The cache files belong to the model name and version. *)
Lemma cache_files_of_name_version X b b' cache_root :
  name b' = name b → version b' = version b →
  hash_file X b' cache_root = hash_file X b cache_root
  ∧ orchestrator_type_file X b' cache_root = orchestrator_type_file X b cache_root.
Proof.
  intros Hn Hv. unfold hash_file, orchestrator_type_file, cache_folder.
  by rewrite Hn, Hv.
Qed.

Lemma json_record_same_file X w w' p :
  files w' !! p = files w !! p → json_record X w' p = json_record X w p.
Proof. unfold json_record. by intros ->. Qed.

(** The second of two runs, in terms of the record the first one left. *)
Lemma second_run X b b' cache_root w c1 w1 t1 w2 :
  name b' = name b → version b' = version b →
  _track_changes X b cache_root w = (Ok c1, w1, t1) →
  files w2 !! hash_file X b cache_root = files w1 !! hash_file X b cache_root →
  files w2 !! orchestrator_type_file X b cache_root
  = files w1 !! orchestrator_type_file X b cache_root →
  (∀ f, f ∈ tracked_files b' → is_Some (tracked_bytes X w2 f)) →
  ∃ c2 w3 t3,
    _track_changes X b' cache_root w2 = (Ok c2, w3, t3)
    ∧ (c2 = true ↔
       (∃ f, f ∈ tracked_files b'
             ∧ hash_record X b cache_root w1 !! f ≠ Some (file_hash X w2 f))
       ∨ orchestrator b' ≠ orchestrator b).
Proof.
  intros Hn Hv Hrun1 Hhf Hotf Hall.
  destruct (cache_files_of_name_version X b b' cache_root Hn Hv) as [Ehf Eotf].
  pose proof (track_changes_Ok_inv _ _ _ _ _ _ _ Hrun1) as H1.
  cbv zeta in H1. destruct H1 as (_ & (rec1 & Hrec1 & _) & Horch1 & _).
  destruct (track_changes_returns X b' cache_root w2 rec1
              {["orchestrator" := VStr (orch_value (orchestrator b))]})
    as (c2 & w3 & t3 & Hrun2); [by rewrite Ehf, Hhf|by rewrite Eotf, Hotf|done|].
  exists c2, w3, t3. split; [done|].
  pose proof (track_changes_Ok_inv _ _ _ _ _ _ _ Hrun2) as H2.
  cbv zeta in H2. destruct H2 as (_ & _ & _ & Hc2 & _).
  rewrite Hc2. unfold hash_record. rewrite Ehf, Eotf.
  rewrite (json_record_same_file X w1 w2 _ Hhf).
  rewrite (json_record_same_file X w1 w2 _ Hotf).
  unfold json_record at 2. rewrite Horch1, lookup_singleton_eq.
  split; (intros [?|Ho]; [by left|right]).
  - intros Heq. apply Ho. by rewrite Heq.
  - intros [= Heq]. by apply orch_value_inj in Heq.
Qed.

(** What a run that returns leaves in the record at the tracked names. *)
Lemma track_changes_record X b cache_root w c w' t f :
  _track_changes X b cache_root w = (Ok c, w', t) →
  hash_record X b cache_root w' !! f
  = if decide (f ∈ tracked_files b) then Some (file_hash X w f)
    else hash_record X b cache_root w !! f.
Proof.
  intros Hrun. apply track_changes_Ok_inv in Hrun. cbv zeta in Hrun.
  destruct Hrun as (_ & (rec & Hrec & Hlook) & _).
  unfold hash_record at 1. unfold json_record. by rewrite Hrec.
Qed.

Lemma file_hash_same_bytes X w w' f :
  tracked_bytes X w' f = tracked_bytes X w f → file_hash X w' f = file_hash X w f.
Proof. unfold file_hash. by intros ->. Qed.

(** C2: of two consecutive runs of change detection for one model name
    and version (the cache files reach the second run as the first left
    them, and the tracked files of the second run can be read), the second
    returns, and it returns changed = true exactly when the hash of some
    tracked file differs from the entry the record holds for its name
    after the first run (no entry counts as differing) or the orchestrator
    differs from that of the first run; with the same tracked files, the
    same contents and the same orchestrator it returns changed = false. *)
Theorem C2_second_run_reports_changes (X : Externals) (b b' : AiImageBuilder)
    (cache_root : option string) (w w1 w2 : World) (c1 : bool) (t1 : list event) :
  name b' = name b → version b' = version b →
  _track_changes X b cache_root w = (Ok c1, w1, t1) →
  files w2 !! hash_file X b cache_root = files w1 !! hash_file X b cache_root →
  files w2 !! orchestrator_type_file X b cache_root
  = files w1 !! orchestrator_type_file X b cache_root →
  (∀ f, f ∈ tracked_files b' → is_Some (tracked_bytes X w2 f)) →
  ∃ c2 w3 t3,
    _track_changes X b' cache_root w2 = (Ok c2, w3, t3)
    ∧ (c2 = true ↔
       (∃ f, f ∈ tracked_files b'
             ∧ hash_record X b cache_root w1 !! f ≠ Some (file_hash X w2 f))
       ∨ orchestrator b' ≠ orchestrator b)
    ∧ (tracked_files b' = tracked_files b →
       (∀ f, f ∈ tracked_files b → tracked_bytes X w2 f = tracked_bytes X w f) →
       orchestrator b' = orchestrator b →
       c2 = false).
Proof.
  intros Hn Hv Hrun1 Hhf Hotf Hall.
  destruct (second_run X b b' cache_root w c1 w1 t1 w2 Hn Hv Hrun1 Hhf Hotf Hall)
    as (c2 & w3 & t3 & Hrun2 & Hc2).
  exists c2, w3, t3. split; [done|]. split; [done|].
  intros Hfs Hsame Ho. apply not_true_is_false. rewrite Hc2.
  intros [(f & Hf & Hne)|?]; [|done]. apply Hne.
  rewrite Hfs in Hf.
  rewrite (track_changes_record _ _ _ _ _ _ _ f Hrun1), decide_True by done.
  by rewrite (file_hash_same_bytes X w w2 f) by (by apply Hsame).
Qed.

Lemma C2_second_run_reports_changes_witness :
  let X := demo_externals true in
  let b := demo_builder LOCAL_DOCKER in
  let w := set_cwd "/src/m" demo_world in
  let w1 := final (_track_changes X b None w) in
  ∃ c2 w3 t3,
    _track_changes X b None w1 = (Ok c2, w3, t3)
    ∧ (c2 = true ↔
       (∃ f, f ∈ tracked_files b
             ∧ hash_record X b None w1 !! f ≠ Some (file_hash X w1 f))
       ∨ orchestrator b ≠ orchestrator b)
    ∧ (tracked_files b = tracked_files b →
       (∀ f, f ∈ tracked_files b → tracked_bytes X w1 f = tracked_bytes X w f) →
       orchestrator b = orchestrator b →
       c2 = false).
Proof.
  cbv zeta.
  apply (C2_second_run_reports_changes (demo_externals true)
           (demo_builder LOCAL_DOCKER) (demo_builder LOCAL_DOCKER) None
           (set_cwd "/src/m" demo_world) _ _ true
           (log (_track_changes (demo_externals true) (demo_builder LOCAL_DOCKER)
                   None (set_cwd "/src/m" demo_world))));
    [done|done|by vm_compute|done|done|].
  intros f Hf. change (f ∈ ["requirements.txt"]) in Hf.
  apply list_elem_of_singleton in Hf as ->. by exists "numpy".
Defined.

(** ** The record after a run, whatever its outcome *)

Lemma final_bind_run {A B} (m : M A) (k : A → M B) w a w1 t1 :
  m w = (Ok a, w1, t1) → final (bind m k w) = final (k a w1).
Proof. intros Hm. by rewrite (bind_run _ _ _ _ _ _ Hm). Qed.

Lemma final_bind_raise {A B} (m : M A) (k : A → M B) w e w1 t1 :
  m w = (Raise e, w1, t1) → final (bind m k w) = w1.
Proof. intros Hm. by rewrite (bind_raise _ _ _ _ _ _ Hm). Qed.

Lemma makedirs_run p w : makedirs p w = (Ok tt, add_dir p w, [EMakedirs p]).
Proof. done. Qed.

Lemma write_file_run p c w : write_file p c w = (Ok tt, set_file p c w, [EWrite p]).
Proof. done. Qed.

Lemma json_load_final X p w : final (json_load X p w) = w.
Proof.
  rewrite json_load_run. destruct (files w !! p) as [[s|d]|]; [|done..].
  by destruct (json_loads X s).
Qed.

Lemma hash_loop_final X fs d c w : final (hash_loop X fs d c w) = w.
Proof.
  revert d c. induction fs as [|f fs IH]; intros d c; [done|].
  cbn [hash_loop]. pose proof (read_bytes_run X f w) as Hread.
  destruct (tracked_bytes X w f) as [data|].
  - by rewrite (final_bind_run _ _ _ _ _ _ Hread), IH.
  - by rewrite (final_bind_raise _ _ _ _ _ _ Hread).
Qed.

(** The step that creates a missing JSON file leaves the dictionary the
    path holds as it was: a missing file reads as the empty one. *)
Lemma ensure_json_file_run X p w :
  ∃ w1 t1,
    (if bool_decide (is_Some (files w !! p)) || bool_decide (p ∈ dirs w)
     then ret tt else write_file p (Json ∅)) w = (Ok tt, w1, t1)
    ∧ json_record X w1 p = json_record X w p
    ∧ (∀ q, q ≠ p → files w1 !! q = files w !! q).
Proof.
  destruct (bool_decide (is_Some (files w !! p))) eqn:Hfile; cbn [orb].
  { by exists w, []. }
  destruct (bool_decide (p ∈ dirs w)); [by exists w, []|].
  exists (set_file p (Json ∅) w), [EWrite p]. split; [done|].
  apply bool_decide_eq_false in Hfile. split.
  - unfold json_record. cbn. rewrite lookup_insert_eq.
    destruct (files w !! p) eqn:Hp; [|done]. destruct Hfile. by eexists.
  - intros q Hq. cbn. by rewrite lookup_insert_ne.
Qed.

(** Once the hash file has been rewritten, the rest of the run, which
    handles the orchestrator file, leaves it alone. *)
Lemma orchestrator_step_keeps_hash_file X b cache_root (c : bool) w :
  let hf := hash_file X b cache_root in
  let otf := orchestrator_type_file X b cache_root in
  files (final
    ((do present <- path_exists otf;
      do_ (if present then ret tt else write_file otf (Json ∅));
      do cached_op_type <- json_load X otf;
      let changes_in_build :=
        if str_ne (orch_value (orchestrator b))
             (dict_get cached_op_type "orchestrator")
        then true else c in
      do_ write_file otf
            (Json {["orchestrator" := VStr (orch_value (orchestrator b))]});
      ret changes_in_build) w)) !! hf
  = files w !! hf.
Proof.
  cbv zeta.
  pose proof (hash_file_ne_orchestrator_type_file X b cache_root) as Hne.
  set (hf := hash_file X b cache_root) in *.
  set (otf := orchestrator_type_file X b cache_root) in *.
  rewrite (final_bind_run _ _ _ _ _ _ (path_exists_run otf w)).
  destruct (ensure_json_file_run X otf w) as (w1 & t1 & Hens & _ & Hfiles).
  rewrite (final_bind_run _ _ _ _ _ _ Hens).
  rewrite <-(Hfiles hf) by done.
  pose proof (json_load_final X otf w1) as Hfin.
  destruct (json_load X otf w1) as [[[d|e] w2] t2] eqn:Hload;
    cbn in Hfin; subst w2.
  - rewrite (final_bind_run _ _ _ _ _ _ Hload).
    rewrite (final_bind_run _ _ _ _ _ _ (write_file_run _ _ _)).
    cbn. by rewrite lookup_insert_ne.
  - by rewrite (final_bind_raise _ _ _ _ _ _ Hload).
Qed.

(** Whatever the outcome of a run, the record keeps its entries at the
    names that the run does not track. *)
Lemma track_changes_retains X b cache_root w f :
  f ∉ tracked_files b →
  hash_record X b cache_root (final (_track_changes X b cache_root w)) !! f
  = hash_record X b cache_root w !! f.
Proof.
  intros Hf. unfold _track_changes, hash_record.
  set (hf := hash_file X b cache_root).
  rewrite (final_bind_run _ _ _ _ _ _ (makedirs_run _ w)).
  set (w0 := add_dir (cache_folder X b cache_root) w).
  change (json_record X w hf) with (json_record X w0 hf).
  rewrite (final_bind_run _ _ _ _ _ _ (path_exists_run hf w0)).
  destruct (ensure_json_file_run X hf w0) as (w1 & t1 & Hens & Hrec & _).
  rewrite (final_bind_run _ _ _ _ _ _ Hens), <-Hrec.
  pose proof (json_load_final X hf w1) as Hfin.
  destruct (json_load X hf w1) as [[[d|e] w2] t2] eqn:Hload;
    cbn in Hfin; subst w2.
  2: { by rewrite (final_bind_raise _ _ _ _ _ _ Hload). }
  rewrite (final_bind_run _ _ _ _ _ _ Hload).
  apply json_load_Ok_inv in Hload as (_ & -> & _).
  pose proof (hash_loop_final X (tracked_files b) (json_record X w1 hf) false w1)
    as Hfin.
  destruct (hash_loop X (tracked_files b) (json_record X w1 hf) false w1)
    as [[[[d' c]|e] w3] t3] eqn:Hloop; cbn in Hfin; subst w3.
  2: { by rewrite (final_bind_raise _ _ _ _ _ _ Hloop). }
  rewrite (final_bind_run _ _ _ _ _ _ Hloop).
  apply hash_loop_Ok_inv in Hloop as (_ & _ & Hd' & _).
  rewrite (final_bind_run _ _ _ _ _ _ (write_file_run _ _ _)).
  pose proof (orchestrator_step_keeps_hash_file X b cache_root c
                (set_file hf (Json d') w1)) as Hkeep.
  cbv zeta in Hkeep. fold hf in Hkeep.
  unfold json_record at 1. rewrite Hkeep.
  cbn. rewrite lookup_insert_eq, Hd'. by rewrite decide_False.
Qed.

(** C10: after every run of change detection, whatever its outcome, the
    persisted hash record holds at every name that the run does not track
    the entry it held before; after a run that returns, it holds at every
    tracked name the hash of that file. So when a run A has recorded the
    files of a builder, a later run B for the same model that tracks fewer
    files (and sees the ones it still tracks unchanged) leaves the entries
    of the dropped files in place, and a run C that tracks them again, with
    the contents they had at A, returns changed = false. *)
Theorem C10_hash_record_updated_at_tracked_names (X : Externals)
    (b b' : AiImageBuilder) (cache_root : option string)
    (w wA wB wB' wC : World) (rA : result bool) (tA tB : list event) (cB : bool) :
  _track_changes X b cache_root w = (rA, wA, tA) →
  let hf := hash_file X b cache_root in
  let otf := orchestrator_type_file X b cache_root in
  let record := hash_record X b cache_root in
  (∀ f, f ∉ tracked_files b → record wA !! f = record w !! f)
  ∧ (∀ cA, rA = Ok cA →
     ∀ f, f ∈ tracked_files b → record wA !! f = Some (file_hash X w f))
  ∧ (∀ cA, rA = Ok cA →
     name b' = name b → version b' = version b →
     orchestrator b' = orchestrator b →
     files wB !! hf = files wA !! hf →
     (∀ f, f ∈ tracked_files b' → f ∈ tracked_files b →
           tracked_bytes X wB f = tracked_bytes X w f) →
     _track_changes X b' cache_root wB = (Ok cB, wB', tB) →
     files wC !! hf = files wB' !! hf →
     files wC !! otf = files wB' !! otf →
     (∀ f, f ∈ tracked_files b → tracked_bytes X wC f = tracked_bytes X w f) →
     (∀ f, f ∈ tracked_files b → f ∉ tracked_files b' →
           record wB' !! f = record wA !! f)
     ∧ ∃ w' t, _track_changes X b cache_root wC = (Ok false, w', t)).
Proof.
  intros HrunA. cbv zeta. split; [|split].
  - intros f Hf.
    pose proof (track_changes_retains X b cache_root w f Hf) as Hkeep.
    by rewrite HrunA in Hkeep.
  - intros cA -> f Hf.
    by rewrite (track_changes_record _ _ _ _ _ _ _ f HrunA), decide_True.
  - intros cA -> Hn Hv Ho HhfB HbytesB HrunB HhfC HotfC HbytesC.
    destruct (cache_files_of_name_version X b b' cache_root Hn Hv) as [Ehf Eotf].
    assert (∀ f, hash_record X b cache_root wB' !! f
                 = if decide (f ∈ tracked_files b') then Some (file_hash X wB f)
                   else hash_record X b cache_root wA !! f) as HrecB.
    { intros f. pose proof (track_changes_record _ _ _ _ _ _ _ f HrunB) as Hr.
      unfold hash_record in *. rewrite Ehf in Hr. rewrite Hr.
      by rewrite (json_record_same_file X wA wB _ HhfB). }
    split.
    { intros f _ Hf. by rewrite HrecB, decide_False. }
    pose proof (track_changes_Ok_inv _ _ _ _ _ _ _ HrunA) as HA.
    cbv zeta in HA. destruct HA as (HreadA & _).
    destruct (second_run X b' b cache_root wB cB wB' tB wC) as
      (c & w' & t & HrunC & Hc); try done.
    { by rewrite Ehf. }
    { by rewrite Eotf. }
    { intros f Hf. rewrite HbytesC by done. by apply HreadA. }
    exists w', t. replace c with false in HrunC; [done|].
    symmetry. apply not_true_is_false. rewrite Hc.
    intros [(f & Hf & Hne)|Hne]; [|by apply Hne]. apply Hne.
    unfold hash_record. rewrite Ehf. fold (hash_record X b cache_root wB').
    rewrite HrecB, (file_hash_same_bytes X w wC f) by (by apply HbytesC).
    destruct (decide (f ∈ tracked_files b')) as [Hin|Hnin].
    + by rewrite (file_hash_same_bytes X w wB f) by (by apply HbytesB).
    + by rewrite (track_changes_record _ _ _ _ _ _ _ f HrunA), decide_True.
Qed.

Lemma C10_hash_record_updated_at_tracked_names_witness :
  let X := demo_externals true in
  let b := demo_builder LOCAL_DOCKER in
  let b' := mkBuilder LOCAL_DOCKER "Model" "/src/m" "m" "1"
              "/src/m/.s2i/environment" None None None in
  let w := set_cwd "/src/m" demo_world in
  let wA := final (_track_changes X b None w) in
  let wB' := final (_track_changes X b' None wA) in
  (∀ f, f ∉ tracked_files b →
        hash_record X b None wA !! f = hash_record X b None w !! f)
  ∧ (∀ f, f ∈ tracked_files b →
          hash_record X b None wA !! f = Some (file_hash X w f))
  ∧ (∀ f, f ∈ tracked_files b → f ∉ tracked_files b' →
          hash_record X b None wB' !! f = hash_record X b None wA !! f)
  ∧ ∃ w' t, _track_changes X b None wB' = (Ok false, w', t).
Proof.
  cbv zeta.
  set (X := demo_externals true).
  set (b := demo_builder LOCAL_DOCKER).
  set (b' := mkBuilder LOCAL_DOCKER "Model" "/src/m" "m" "1"
               "/src/m/.s2i/environment" None None None).
  set (w := set_cwd "/src/m" demo_world).
  set (wA := final (_track_changes X b None w)).
  set (wB' := final (_track_changes X b' None wA)).
  destruct (C10_hash_record_updated_at_tracked_names X b b' None w wA wA wB' wB'
              (Ok true) (log (_track_changes X b None w))
              (log (_track_changes X b' None wA)) false)
    as (Hkeep & Hnew & Hrestore); [by vm_compute|].
  split; [exact Hkeep|]. split; [exact (Hnew true eq_refl)|].
  apply (Hrestore true); try done.
  - intros f Hf. change (f ∈ []) in Hf. by apply elem_of_nil in Hf.
  - intros f Hf. change (f ∈ ["requirements.txt"]) in Hf.
    apply list_elem_of_singleton in Hf as ->. by vm_compute.
Defined.

(** * Further properties of the pipeline *)

(** ** The resolver *)

(** The flag combinations the resolver refuses. *)
Definition refused_flags (enable_eia lambda_mode enable_cuda k8s_mode : bool) : bool :=
  enable_eia && (lambda_mode || enable_cuda || k8s_mode)
  || enable_cuda && lambda_mode.

Lemma resolver_refuses (current_env : string)
    (enable_eia lambda_mode enable_cuda cuda_devel k8s_mode : bool) (version : Z)
    (use_internal : bool) :
  refused_flags enable_eia lambda_mode enable_cuda k8s_mode = true →
  ∃ e, _get_base_name current_env enable_eia lambda_mode enable_cuda cuda_devel
         k8s_mode version use_internal = Raise e.
Proof.
  unfold _get_base_name, refused_flags.
  destruct enable_eia, lambda_mode, enable_cuda, k8s_mode; cbn;
    try done; by eexists.
Qed.

(** The resolver raises exactly on the refused combinations, the EIA
    error taking precedence over the CUDA one; and with [cuda_devel] set
    the name it returns does not depend on [enable_cuda] and [enable_eia]:
    the development GPU image is chosen before the other hardware
    variants are looked at. *)
Theorem resolver_refusals_and_devel_priority (current_env : string)
    (enable_eia lambda_mode enable_cuda cuda_devel k8s_mode : bool) (version : Z)
    (use_internal : bool) :
  let resolve := _get_base_name current_env in
  ((∃ base, resolve enable_eia lambda_mode enable_cuda cuda_devel k8s_mode
              version use_internal = Ok base)
   ↔ refused_flags enable_eia lambda_mode enable_cuda k8s_mode = false)
  ∧ (enable_eia && (lambda_mode || enable_cuda || k8s_mode) = true →
     resolve enable_eia lambda_mode enable_cuda cuda_devel k8s_mode version
       use_internal
     = Raise (ValueError "Cannot use EIA with other options"))
  ∧ (∀ base,
       resolve enable_eia lambda_mode enable_cuda true k8s_mode version
         use_internal = Ok base →
       resolve false lambda_mode false true k8s_mode version use_internal
       = Ok base).
Proof.
  cbv zeta. unfold _get_base_name, refused_flags. split; [|split].
  - destruct enable_eia, lambda_mode, enable_cuda, k8s_mode; cbn;
      split; try done; try (by intros [? ?]); by eexists.
  - by intros ->.
  - intros base.
    destruct enable_eia, lambda_mode, enable_cuda, k8s_mode; cbn; done.
Qed.

(** Outside the [dev] environment, the internal variant of a base image
    has another name than the public one. *)
Lemma internal_name_differs (current_env : string)
    (enable_eia lambda_mode enable_cuda cuda_devel k8s_mode : bool) (base : string) :
  current_env ≠ "dev" →
  _get_base_name current_env enable_eia lambda_mode enable_cuda cuda_devel
    k8s_mode 1 false = Ok base →
  _get_base_name current_env enable_eia lambda_mode enable_cuda cuda_devel
    k8s_mode 1 true ≠ Ok base.
Proof.
  intros Hdev. unfold _get_base_name.
  destruct (String.eqb_spec current_env "dev") as [|_]; [done|].
  destruct enable_eia, lambda_mode, enable_cuda, cuda_devel, k8s_mode; cbn;
    try done; intros [= <-]; by vm_compute.
Qed.

(** ** The build, its flags and its guards *)

(** [build_image_s2i] takes [use_internal] and never hands it on: a build
    runs the same with it on or off, and outside the [dev] environment a
    build that returns has taken every s2i source image from the public
    base image or from its own dependency layer, never from the internal
    base image that [use_internal] asks for. *)
Theorem build_ignores_use_internal (X : Externals) (b : AiImageBuilder)
    (image_name version_tag : string)
    (enable_cuda enable_eia cuda_devel from_scratch always_download : bool)
    (w : World) (r : string) :
  current_env X ≠ "dev" →
  let run := build_image_s2i X b image_name version_tag enable_cuda enable_eia
               cuda_devel from_scratch always_download true w in
  let resolve := _get_base_name (current_env X) enable_eia
                   (is_lambda (orchestrator b)) enable_cuda cuda_devel
                   (is_k8s (orchestrator b)) 1 in
  outcome run = Ok r →
  run = build_image_s2i X b image_name version_tag enable_cuda enable_eia
          cuda_devel from_scratch always_download false w
  ∧ ∃ base, resolve false = Ok base
            ∧ resolve true ≠ Ok base
            ∧ ∀ src tgt, (src, tgt) ∈ s2i_calls (log run) →
                         src = base ∨ src = pip_layer image_name version_tag.
Proof.
  intros Hdev. cbv zeta. intros Hrun. split; [done|].
  apply build_image_s2i_Ok in Hrun as (Hbody & Hcalls & _).
  apply build_image_s2i_body_Ok in Hbody
    as (changed & base & stage1 & _ & Hbase & _ & Hs & _).
  exists base. split; [exact Hbase|].
  split; [by apply internal_name_differs|].
  intros src tgt. rewrite Hcalls, Hs.
  destruct stage1; cbn; rewrite ?elem_of_cons, ?elem_of_nil;
    intros H; destruct_or?; simplify_eq; auto.
Qed.

Lemma build_ignores_use_internal_witness :
  let X := demo_externals true in
  let b := demo_builder LOCAL_DOCKER in
  let run := build_image_s2i X b "m" "1" false false false false false true
               demo_world in
  run = build_image_s2i X b "m" "1" false false false false false false demo_world
  ∧ ∃ base, _get_base_name "prod" false false false false false 1 false = Ok base
            ∧ _get_base_name "prod" false false false false false 1 true ≠ Ok base
            ∧ ∀ src tgt, (src, tgt) ∈ s2i_calls (log run) →
                         src = base ∨ src = pip_layer "m" "1".
Proof.
  cbv zeta.
  apply (build_ignores_use_internal (demo_externals true)
           (demo_builder LOCAL_DOCKER) "m" "1" false false false false false
           demo_world "m:1"); [discriminate|by vm_compute].
Defined.

(** Whenever the resolver refuses the flags of a build (EIA on a Lambda
    or Kubernetes orchestrator or together with CUDA, CUDA on a Lambda
    orchestrator), [build_image_s2i] fails, and it has looked up, pulled,
    tagged or built no image by then. *)
Theorem build_with_refused_flags_fails_before_docker (X : Externals)
    (b : AiImageBuilder) (image_name version_tag : string)
    (enable_cuda enable_eia cuda_devel from_scratch always_download
     use_internal : bool) (w : World) :
  refused_flags enable_eia (is_lambda (orchestrator b)) enable_cuda
    (is_k8s (orchestrator b)) = true →
  let run := build_image_s2i X b image_name version_tag enable_cuda enable_eia
               cuda_devel from_scratch always_download use_internal w in
  (∃ e, outcome run = Raise e)
  ∧ Forall (λ ev, docker_io ev = false) (log run)
  ∧ s2i_calls (log run) = [] ∧ registry_pulls (log run) = [].
Proof.
  intros Hflags. cbv zeta.
  destruct (resolver_refuses (current_env X) enable_eia
              (is_lambda (orchestrator b)) enable_cuda cuda_devel
              (is_k8s (orchestrator b)) 1 false Hflags) as [e Hres].
  change (resolved_base X b enable_cuda enable_eia cuda_devel = Raise e) in Hres.
  assert ((∃ e, outcome (build_image_s2i X b image_name version_tag enable_cuda
                           enable_eia cuda_devel from_scratch always_download
                           use_internal w) = Raise e)
          ∧ Forall (λ ev, docker_io ev = false)
              (log (build_image_s2i X b image_name version_tag enable_cuda
                      enable_eia cuda_devel from_scratch always_download
                      use_internal w))) as [Hout Hlog].
  { unfold build_image_s2i.
    destruct (decide (cwd w ∈ dirs w)) as [Hcwd|Hcwd].
    - rewrite reset_workdir_run
        by (done || apply build_image_s2i_body_dirs_grow).
      destruct (build_image_s2i_body_resolver_raises X b image_name version_tag
                  enable_cuda enable_eia cuda_devel from_scratch always_download
                  use_internal w e Hres) as [Hlog Hout].
      split.
      + change (outcome (?r, _, _)) with r. rewrite Hout.
        case_decide; [|by eexists].
        destruct (changes_detected X b w); by eexists.
      + change (log (_, _, ?t)) with t. apply Forall_app. split; [done|].
        by repeat constructor.
    - rewrite reset_workdir_no_cwd by done. split; [by eexists|constructor]. }
  split; [done|]. split; [done|]. split.
  - apply no_s2i_calls. eapply Forall_impl; [exact Hlog|]. by intros [].
  - apply no_registry_pulls. eapply Forall_impl; [exact Hlog|]. by intros [].
Qed.

Lemma build_with_refused_flags_fails_before_docker_witness :
  let run := build_image_s2i (demo_externals true)
               (demo_builder AWS_LAMBDA) "m" "1" true false false false false
               false demo_world in
  (∃ e, outcome run = Raise e)
  ∧ Forall (λ ev, docker_io ev = false) (log run)
  ∧ s2i_calls (log run) = [] ∧ registry_pulls (log run) = [].
Proof.
  cbv zeta.
  apply (build_with_refused_flags_fails_before_docker (demo_externals true)
           (demo_builder AWS_LAMBDA) "m" "1" true false false false false false
           demo_world).
  reflexivity.
Defined.

(** [fails_with P m]: every run of [m] raises, having logged only events
    that satisfy [P]. *)
Definition fails_with (P : event → Prop) {A} (m : M A) : Prop :=
  ∀ w, (∃ e, outcome (m w) = Raise e) ∧ Forall P (log (m w)).

Lemma fails_bind_l {A B} P (m : M A) (k : A → M B) :
  fails_with P m → fails_with P (bind m k).
Proof.
  intros Hm w. destruct (Hm w) as [[e He] Hlog].
  unfold bind, outcome, log in *.
  destruct (m w) as [[[a|e'] w1] t1]; simpl in *; [done|].
  split; [by eexists|done].
Qed.

Lemma fails_bind_r {A B} P (m : M A) (k : A → M B) :
  logs P m → (∀ a, fails_with P (k a)) → fails_with P (bind m k).
Proof.
  intros Hm Hk w. specialize (Hm w). unfold bind, outcome, log in *.
  destruct (m w) as [[[a|e'] w1] t1]; simpl in *; [|split; [by eexists|done]].
  destruct (Hk a w1) as [[e He] Hlog]. unfold outcome, log in *.
  destruct (k a w1) as [[r w2] t2]. simpl in *.
  split; [by eexists|by apply Forall_app].
Qed.

Lemma fails_reset_workdir {A} P (function : M A) :
  (∀ p, P (EChdir p)) → fails_with P function →
  fails_with P (reset_workdir function).
Proof.
  intros HP Hf w. unfold reset_workdir, bind, getcwd.
  case_decide; [|split; [by eexists|constructor]].
  unfold try_finally. destruct (Hf w) as [[e He] Hlog].
  unfold outcome, log in *. destruct (function w) as [[r w1] t1]. simpl in *.
  subst r. unfold chdir. case_decide; simpl;
    (split; [by eexists|]); apply Forall_app; by repeat constructor.
Qed.

Lemma logs_images_get P image : P (EImageGet image) → logs P (images_get image).
Proof. intros HP. unfold images_get. repeat step. done. Qed.

(** Without s2i on the path no build gets as far as an s2i run: every
    invocation of [build_image_s2i] raises (the missing-tool error, unless
    an earlier step has failed already), and its log holds no s2i run. *)
Theorem build_without_s2i_never_builds (X : Externals) (b : AiImageBuilder)
    (image_name version_tag : string)
    (enable_cuda enable_eia cuda_devel from_scratch always_download
     use_internal : bool) (w : World) :
  s2i_on_path X = false →
  let run := build_image_s2i X b image_name version_tag enable_cuda enable_eia
               cuda_devel from_scratch always_download use_internal w in
  (∃ e, outcome run = Raise e) ∧ s2i_calls (log run) = [].
Proof.
  intros Hs2i. cbv zeta.
  set (P := λ e, s2i_call e = None).
  assert (fails_with P
            (build_image_s2i X b image_name version_tag enable_cuda enable_eia
               cuda_devel from_scratch always_download use_internal)) as Hfails.
  { unfold build_image_s2i. apply fails_reset_workdir; [done|].
    unfold build_image_s2i_body.
    apply fails_bind_r; [by apply logs_chdir; intros []|intros _].
    apply fails_bind_r;
      [apply (logs_track_changes X P local_no_s2i_call)|intros changed].
    apply fails_bind_r; [by apply logs_emit|intros _].
    apply fails_bind_r; [apply logs_lift|intros base].
    apply fails_bind_r; [repeat first
      [ apply download_base_image_no_s2i | step ]|intros fs].
    apply fails_bind_r; [repeat first
      [ apply download_base_image_no_s2i | by apply logs_images_get | step ]
      |intros _].
    apply fails_bind_l. intros w1. unfold require_s2i, bind, emit, raise.
    rewrite Hs2i. cbn. split; [by eexists|by repeat constructor]. }
  destruct (Hfails w) as [Hout Hlog]. split; [done|by apply no_s2i_calls].
Qed.

Lemma build_without_s2i_never_builds_witness :
  let run := build_image_s2i (demo_externals false) (demo_builder LOCAL_DOCKER)
               "m" "1" false false false false false false demo_world in
  (∃ e, outcome run = Raise e) ∧ s2i_calls (log run) = [].
Proof.
  cbv zeta.
  apply (build_without_s2i_never_builds (demo_externals false)
           (demo_builder LOCAL_DOCKER) "m" "1" false false false false false
           false demo_world).
  reflexivity.
Defined.
